(** * A shallow embedding of the shark AI of TexesPoker (texas_holdem/ai/shark_ai.py)

    Python floats are modelled as exact rationals [Q]; Python ints as [Z]
    (or [nat] for counters that only grow); dictionaries with string keys
    as association lists that keep insertion order, as Python dicts do. *)

From Stdlib Require Import ZArith QArith Qminmax String List Bool Lia.
Import ListNotations.
Open Scope Q_scope.

(** ** Python helpers *)

(** [dict[k] = v]: replace the value of an existing key in place, or append
    a new key at the end. *)
Fixpoint dict_set {V : Type} (k : string) (v : V) (d : list (string * V))
  : list (string * V) :=
  match d with
  | [] => [(k, v)]
  | (k', v') :: d' =>
      if String.eqb k k' then (k, v) :: d' else (k', v') :: dict_set k v d'
  end.

Fixpoint dict_get {V : Type} (k : string) (d : list (string * V)) : option V :=
  match d with
  | [] => None
  | (k', v') :: d' => if String.eqb k k' then Some v' else dict_get k d'
  end.

Definition dict_mem {V : Type} (k : string) (d : list (string * V)) : bool :=
  match dict_get k d with Some _ => true | None => false end.

(** Python's [min(a, b)] and [max(a, b)] on two numbers: the first argument
    is kept unless the second is strictly better. *)
Definition py_min (a b : Q) : Q := if Qlt_le_dec b a then b else a.
Definition py_max (a b : Q) : Q := if Qlt_le_dec a b then b else a.

(** Python's [max] over a non-empty iterable keeps the first maximum. *)
Definition py_max_list (x : Q) (xs : list Q) : Q :=
  fold_left py_max xs x.

(** Membership of a name in the list [available_names]. *)
Definition name_in (s : string) (l : list string) : bool :=
  existsb (String.eqb s) l.

(** [int(x)] of a float: truncation towards zero. *)
Definition py_int (x : Q) : Z := Z.quot (Qnum x) (Zpos (Qden x)).

(** ** DrawEvaluator *)

Record Card := mkCard { suit : string; value : Z }.

Record Draw := mkDraw { outs : Z; equity : Q }.

Definition Draws := list (string * Draw).

(** [DrawEvaluator.calculate_total_equity] *)
Definition calculate_total_equity (draws : Draws) : Q :=
  match draws with
  | [] => 0
  | (_, d) :: rest => py_max_list (equity d) (map (fun kd => equity (snd kd)) rest)
  end.

(** ** PositionAwareness *)

(** [PositionAwareness.POSITION_MULTIPLIERS.get(position, 1.0)] *)
Definition position_multiplier (position : string) : Q :=
  if String.eqb position "EP" then 0.70
  else if String.eqb position "MP" then 0.85
  else if String.eqb position "CO" then 1.10
  else if String.eqb position "BTN" then 1.25
  else if String.eqb position "SB" then 0.90
  else if String.eqb position "BB" then 1.00
  else 1.0.

(** [PositionAwareness.get_adjusted_threshold] *)
Definition get_adjusted_threshold (base_threshold : Q) (position : string) : Q :=
  base_threshold * position_multiplier position.

(** The local table of [SharkAI._preflop_decision]
    ([position_multipliers.get(position, 1.0)]). *)
Definition preflop_position_multiplier (position : string) : Q :=
  if String.eqb position "EP" then 1.0
  else if String.eqb position "MP" then 0.98
  else if String.eqb position "CO" then 0.95
  else if String.eqb position "BTN" then 0.93
  else if String.eqb position "SB" then 0.98
  else if String.eqb position "BB" then 0.95
  else 1.0.

Definition TIER3_THRESHOLD : Q := 0.60.

(** [adjusted_threshold = tier_threshold * position_multipliers.get(...)] *)
Definition preflop_adjusted_threshold (tier_threshold : Q) (position : string) : Q :=
  tier_threshold * preflop_position_multiplier position.

(** ** PotOddsCalculator *)

(** Python's [a / b] on two ints: [ZeroDivisionError] ([None]) when
    [b = 0], the exact quotient otherwise. *)
Definition py_div (a b : Z) : option Q :=
  if (b =? 0)%Z then None else Some (inject_Z a / inject_Z b).

(** [calculate_direct_odds]; [None] is the [ZeroDivisionError] raised when
    [total_pot + amount_to_call = 0]. *)
Definition calculate_direct_odds (amount_to_call total_pot : Z) : option Q :=
  if (amount_to_call <=? 0)%Z then Some 0
  else py_div amount_to_call (total_pot + amount_to_call).

(** The dictionary returned by [calculate_implied_odds]: a key the
    dictionary lacks is [None]. *)
Record ImpliedOdds := mkImpliedOdds {
  io_total_equity : option Q;
  io_direct_equity_needed : option Q;
  io_implied_equity_needed : option Q;
  io_potential_future_win : option Q;
  io_should_call : bool
}.

Definition street_multiplier (street : string) : Q :=
  if String.eqb street "flop" then 2.5
  else if String.eqb street "turn" then 1.3
  else if String.eqb street "river" then 1.0
  else 1.0.

(** [PotOddsCalculator.calculate_implied_odds]; [None] is the
    [ZeroDivisionError] of [direct_equity_needed] when
    [total_pot + amount_to_call = 0].  The second division is only reached
    with [total_potential > amount_to_call > 0]. *)
Definition calculate_implied_odds (amount_to_call total_pot : Z)
    (effective_stack : Q) (street : string) (draw_equity : Q) : option ImpliedOdds :=
  if (amount_to_call <=? 0)%Z then
    Some (mkImpliedOdds (Some 0) None None None true)
  else
    let multiplier := street_multiplier street in
    let potential_future_win :=
      py_min (effective_stack * 0.3 * draw_equity * multiplier)
             (effective_stack * 0.5) in
    let total_potential := inject_Z total_pot + potential_future_win in
    match py_div amount_to_call (total_pot + amount_to_call) with
    | None => None
    | Some direct_equity_needed =>
      let implied_equity_needed :=
        if Qlt_le_dec (inject_Z amount_to_call) total_potential
        then inject_Z amount_to_call / total_potential
        else direct_equity_needed in
      Some (mkImpliedOdds None (Some direct_equity_needed) (Some implied_equity_needed)
        (Some potential_future_win)
        (if Qlt_le_dec (implied_equity_needed * 0.9) draw_equity then true else false))
    end.

(** ** SPRStrategy *)

(** A float that may be [inf]. *)
Inductive ext := Fin (q : Q) | PInf.

(** [spr > c] on a float that may be infinite. *)
Definition ext_gt (x : ext) (c : Q) : bool :=
  match x with
  | PInf => true
  | Fin q => if Qlt_le_dec c q then true else false
  end.

(** [SPRStrategy.calculate_spr] *)
Definition calculate_spr (effective_stack : Q) (pot : Z) : ext :=
  if (pot <=? 0)%Z then PInf else Fin (effective_stack / inject_Z pot).

(** The dictionary returned by [get_strategy_by_spr]; [push_fold] is the
    value of [.get('push_fold', False)] (the two deep regimes lack the key). *)
Record SprGuidance := mkSprGuidance {
  play_speculative : bool;
  set_mine : bool;
  commit_threshold : Q;
  avoid_light_commit : bool;
  hand_requirement : Q;
  push_fold : bool
}.

(** [SPRStrategy.get_strategy_by_spr] *)
Definition get_strategy_by_spr (spr : ext) (hand_strength draw_equity : Q) : SprGuidance :=
  if ext_gt spr 15 then mkSprGuidance true true 0.75 true 0.55 false
  else if ext_gt spr 7 then
    mkSprGuidance (if Qlt_le_dec 0.25 draw_equity then true else false)
      true 0.65 false 0.50 false
  else if ext_gt spr 3 then mkSprGuidance false false 0.55 false 0.48 false
  else mkSprGuidance false false 0.45 false 0.42 true.

(** ** DrawEvaluator.identify_draws *)

(** Insertion into a sorted list without duplicates. *)
Fixpoint insert_set (x : Z) (l : list Z) : list Z :=
  match l with
  | [] => [x]
  | y :: l' =>
      if (x <? y)%Z then x :: l
      else if (x =? y)%Z then l
      else y :: insert_set x l'
  end.

(** [sorted(set(xs))] *)
Definition sorted_set (xs : list Z) : list Z := fold_left (fun acc x => insert_set x acc) xs [].

(** [set(xs)] for strings, in order of first occurrence. *)
Fixpoint string_set (xs : list string) : list string :=
  match xs with
  | [] => []
  | x :: xs' => x :: filter (fun y => negb (String.eqb x y)) (string_set xs')
  end.

Definition count_suit (s : string) (cards : list Card) : nat :=
  length (filter (fun c => String.eqb (suit c) s) cards).

(** The straight-draw scans: some window [values[i:i+4]] with
    [values[i+3] - values[i] == gap] and [len(set(values[i:i+4])) == 4]
    (the loop breaks at the first, and every match writes the same entry). *)
Fixpoint window_found (gap : Z) (values : list Z) : bool :=
  match values with
  | a :: ((b :: c :: d :: _) as t) =>
      if ((d - a =? gap)%Z && (length (sorted_set [a; b; c; d]) =? 4)%nat)
      then true else window_found gap t
  | _ => false
  end.

Definition max_value (c : Card) (cs : list Card) : Z :=
  fold_left (fun m c' => if (m <? value c')%Z then value c' else m) cs (value c).

(** [sorted(..., reverse=True)] for a list of ints. *)
Definition sorted_desc (xs : list Z) : list Z :=
  fold_left (fun acc x =>
    (fix ins (l : list Z) : list Z :=
       match l with
       | [] => [x]
       | y :: l' => if (y <? x)%Z then x :: l else y :: ins l'
       end) acc) xs [].

(** [DrawEvaluator.identify_draws]; [None] is the [IndexError] raised by
    [hole_values[0]] when there are community cards and no hole card. *)
Definition identify_draws (hole_cards community_cards : list Card) : option Draws :=
  match community_cards with
  | [] => Some []
  | cc :: ccs =>
    let all_cards := hole_cards ++ community_cards in
    let values := sorted_set (map value all_cards) in
    let suits := map suit all_cards in
    let d1 := fold_left (fun draws s =>
        if ((count_suit s all_cards =? 4)%nat && (1 <=? count_suit s hole_cards)%nat)
        then dict_set "flush_draw" (mkDraw 9 0.35) draws else draws)
        (string_set suits) [] in
    let d2 := fold_left (fun draws s =>
        if ((count_suit s all_cards =? 3)%nat && (length community_cards =? 3)%nat)
        then dict_set "backdoor_flush" (mkDraw 1 0.04) draws else draws)
        (string_set suits) d1 in
    let d3 := if (4 <=? length values)%nat
              then let d := if window_found 3 values
                            then dict_set "oesd" (mkDraw 8 0.31) d2 else d2 in
                   if window_found 4 values
                   then dict_set "gutshot" (mkDraw 4 0.16) d else d
              else d2 in
    match sorted_desc (map value hole_cards) with
    | [] => None
    | h0 :: hs =>
      let top := max_value cc ccs in
      let d4 :=
        if (12 <=? h0)%Z then
          let overcard_outs := Z.of_nat (length (filter (fun v => (top <? v)%Z) (h0 :: hs))) in
          if (0 <? overcard_outs)%Z
          then dict_set "overcards"
                 (mkDraw (overcard_outs * 3) (inject_Z overcard_outs * 0.12)) d3
          else d3
        else d3 in
      let d5 :=
        if dict_mem "flush_draw" d4 && dict_mem "oesd" d4
        then dict_set "combo_draw" (mkDraw 15 0.54) d4
        else if dict_mem "flush_draw" d4 && dict_mem "gutshot" d4
        then dict_set "combo_draw" (mkDraw 12 0.45) d4
        else d4 in
      Some d5
    end
  end.

(** ** SharkAI: opponent model and strategy adaptation *)

Record Config := mkConfig {
  vpip_range : Z * Z;
  pfr_range : Z * Z;
  af_factor : Q;
  bluff_freq : Q;
  call_preflop : Q;
  raise_preflop : Q;
  bet_postflop : Q;
  fold_to_raise : Q;
  adaptation_start : nat;
  learning_rate : Q
}.

(** [self.base_config] of [SharkAI.__init__]. *)
Definition base_config : Config :=
  mkConfig (12, 18)%Z (10, 16)%Z 2.5 0.15 0.20 0.25 0.45 0.60 20 0.1.

(** One entry of [self.opponent_data]. *)
Record OppData := mkOppData {
  hands_observed : nat;
  folds : nat;
  calls : nat;
  raises : nat;
  bluffs_detected : nat;
  bluff_opportunities : nat;
  fold_to_cbet : nat;
  cbet_opportunities : nat;
  showdown_wins : nat;
  showdowns : nat;
  fold_tendency : Q;
  bluff_tendency : Q;
  calling_tendency : Q
}.

Definition fresh_opp : OppData := mkOppData 0 0 0 0 0 0 0 0 0 0 0.5 0.5 0.5.

Record Shark := mkShark {
  opponent_data : list (string * OppData);
  adaptation_active : bool;
  shark_hands_observed : nat;
  current_config : Config
}.

(** [SharkAI.__init__] *)
Definition init_shark : Shark := mkShark [] false 0 base_config.

(** A player passed to [initialize_opponents]: its name, [is_ai] and
    [ai_style] ([getattr(player, 'ai_style', 'LAG')]). *)
Record Player := mkPlayer { pname : string; is_ai : bool; ai_style : string }.

(** [SharkAI.initialize_opponents] *)
Definition initialize_opponents (players : list Player) (s : Shark) : Shark :=
  let od := fold_left (fun od p =>
      if negb (is_ai p) || negb (String.eqb (ai_style p) "SHARK")
      then dict_set (pname p) fresh_opp od else od) players [] in
  mkShark od false 0 base_config.

Definition clamp01 (x : Q) : Q := py_min 1.0 (py_max 0.0 x).

(** [SharkAI._calculate_tendencies] on one record. *)
Definition calculate_tendencies (data : OppData) : OppData :=
  let hands := hands_observed data in
  if (hands <? 3)%nat then data
  else
    let fold_rate := inject_Z (Z.of_nat (folds data)) / inject_Z (Z.of_nat hands) in
    let ft := clamp01 (fold_rate * 2) in
    let bt := if (0 <? raises data)%nat
              then py_min 1.0 (inject_Z (Z.of_nat (bluffs_detected data))
                               / inject_Z (Z.of_nat (raises data)) * 3)
              else bluff_tendency data in
    let ct := if (folds data <? hands)%nat
              then clamp01 (inject_Z (Z.of_nat (calls data))
                            / inject_Z (Z.of_nat (hands - folds data)))
              else calling_tendency data in
    mkOppData hands (folds data) (calls data) (raises data) (bluffs_detected data)
      (bluff_opportunities data) (fold_to_cbet data) (cbet_opportunities data)
      (showdown_wins data) (showdowns data) ft bt ct.

Definition sumQ (xs : list Q) : Q := fold_left Qplus xs 0.

Definition avg_of (f : OppData -> Q) (od : list (string * OppData)) : Q :=
  sumQ (map (fun kv => f (snd kv)) od) / inject_Z (Z.of_nat (length od)).

(** [SharkAI._update_strategy]: the three rules write fields of
    [current_config] from [base_config]; only when none fires is
    [current_config] replaced by a copy of [base_config]. *)
Definition update_strategy (od : list (string * OppData)) (cur : Config) : Config :=
  match od with
  | [] => cur
  | _ =>
    let avg_fold := avg_of fold_tendency od in
    let avg_bluff := avg_of bluff_tendency od in
    let avg_call := avg_of calling_tendency od in
    let b := base_config in
    let r1 := Qlt_le_dec 0.6 avg_fold in
    let c1 := if r1
              then {| vpip_range := vpip_range cur; pfr_range := pfr_range cur;
                      af_factor := af_factor b + 0.5;
                      bluff_freq := py_min 0.5 (bluff_freq b + 0.15);
                      call_preflop := call_preflop cur; raise_preflop := raise_preflop cur;
                      bet_postflop := py_min 0.7 (bet_postflop b + 0.15);
                      fold_to_raise := fold_to_raise cur;
                      adaptation_start := adaptation_start cur;
                      learning_rate := learning_rate cur |}
              else cur in
    let r2 := Qlt_le_dec 0.4 avg_bluff in
    let c2 := if r2
              then {| vpip_range := (Z.max 15 (fst (vpip_range b) - 5),
                                     Z.max 20 (snd (vpip_range b) - 5))%Z;
                      pfr_range := pfr_range c1; af_factor := af_factor c1;
                      bluff_freq := bluff_freq c1;
                      call_preflop := py_min 0.4 (call_preflop b + 0.1);
                      raise_preflop := raise_preflop c1; bet_postflop := bet_postflop c1;
                      fold_to_raise := py_max 0.3 (fold_to_raise b - 0.1);
                      adaptation_start := adaptation_start c1;
                      learning_rate := learning_rate c1 |}
              else c1 in
    let r3 := Qlt_le_dec 0.5 avg_call in
    let c3 := if r3
              then {| vpip_range := vpip_range c2; pfr_range := pfr_range c2;
                      af_factor := af_factor b + 0.3;
                      bluff_freq := py_max 0.1 (bluff_freq b - 0.1);
                      call_preflop := call_preflop c2; raise_preflop := raise_preflop c2;
                      bet_postflop := bet_postflop b + 0.1;
                      fold_to_raise := fold_to_raise c2;
                      adaptation_start := adaptation_start c2;
                      learning_rate := learning_rate c2 |}
              else c2 in
    if (if r1 then true else if r2 then true else if r3 then true else false)
    then c3 else base_config
  end.

Definition total_hands (od : list (string * OppData)) : nat :=
  fold_left (fun acc kv => (acc + hands_observed (snd kv))%nat) od 0%nat.

(** The counter updates of [update_after_action] on the opponent's record. *)
Definition record_action (action : string) (is_bluff facing_cbet : bool)
    (d : OppData) : OppData :=
  let h := S (hands_observed d) in
  let '(f, fc, c, r, b) :=
    if String.eqb action "fold" then
      (S (folds d), (if facing_cbet then S (fold_to_cbet d) else fold_to_cbet d),
       calls d, raises d, bluffs_detected d)
    else if String.eqb action "call" then
      (folds d, fold_to_cbet d, S (calls d), raises d, bluffs_detected d)
    else if String.eqb action "raise" || String.eqb action "bet" then
      (folds d, fold_to_cbet d, calls d, S (raises d),
       (if is_bluff then S (bluffs_detected d) else bluffs_detected d))
    else (folds d, fold_to_cbet d, calls d, raises d, bluffs_detected d) in
  mkOppData h f c r b (bluff_opportunities d) fc
    (if facing_cbet then S (cbet_opportunities d) else cbet_opportunities d)
    (showdown_wins d) (showdowns d)
    (fold_tendency d) (bluff_tendency d) (calling_tendency d).

(** [SharkAI.update_after_action] *)
Definition update_after_action (player_name action street : string)
    (is_bluff facing_cbet : bool) (s : Shark) : Shark :=
  match dict_get player_name (opponent_data s) with
  | None => s
  | Some d =>
    let data := record_action action is_bluff facing_cbet d in
    let od := dict_set player_name data (opponent_data s) in
    let hs := S (shark_hands_observed s) in
    let active :=
      if adaptation_active s then true
      else (adaptation_start base_config <=? total_hands od)%nat in
    if (Nat.eqb (Nat.modulo (hands_observed data) 5) 0) || active then
      let od' := dict_set player_name (calculate_tendencies data) od in
      if active then mkShark od' active hs (update_strategy od' (current_config s))
      else mkShark od' active hs (current_config s)
    else mkShark od active hs (current_config s)
  end.

(** One observed action: the arguments of [update_after_action]. *)
Record Obs := mkObs {
  o_name : string; o_action : string; o_street : string;
  o_bluff : bool; o_cbet : bool
}.

Definition observe (s : Shark) (o : Obs) : Shark :=
  update_after_action (o_name o) (o_action o) (o_street o) (o_bluff o) (o_cbet o) s.

Definition run (s : Shark) (os : list Obs) : Shark := fold_left observe os s.

(** [SharkAI.get_opponent_summary] *)
Definition get_opponent_summary (s : Shark) : string :=
  if negb (adaptation_active s) then "[鲨鱼AI] 观察中..."%string
  else
    let summaries := map (fun kv =>
        let data := snd kv in
        let fold_desc :=
          if Qlt_le_dec 0.6 (fold_tendency data) then "易弃牌"%string
          else if Qlt_le_dec (fold_tendency data) 0.4 then "难弃牌"%string
          else "中等"%string in
        let bluff_desc :=
          if Qlt_le_dec 0.4 (bluff_tendency data) then "爱诈唬"%string
          else if Qlt_le_dec (bluff_tendency data) 0.2 then "诚实"%string
          else "平衡"%string in
        (fst kv ++ "(" ++ fold_desc ++ "/" ++ bluff_desc ++ ")")%string)
      (filter (fun kv => (5 <=? hands_observed (snd kv))%nat) (opponent_data s)) in
    match summaries with
    | [] => "[鲨鱼AI] 学习中..."%string
    | _ => ("[鲨鱼AI] 分析: " ++ String.concat ", " summaries)%string
    end.

(** The text reported before adaptation activates. *)
Definition observing_text : string := "[鲨鱼AI] 观察中..."%string.

(** ** SharkAI: decisions *)

Inductive Action := FOLD | CHECK | CALL | BET | RAISE | ALL_IN.

(** The lower-case name of an action, as in [available_names] and in the
    keys of the weight table. *)
Definition action_name (a : Action) : string :=
  match a with
  | FOLD => "fold" | CHECK => "check" | CALL => "call"
  | BET => "bet" | RAISE => "raise" | ALL_IN => "all_in"
  end.

(** [PositionAwareness.get_position] *)
Definition get_position (is_dealer is_small_blind is_big_blind : bool) : string :=
  if is_dealer then "BTN" else if is_small_blind then "SB"
  else if is_big_blind then "BB" else "MP".

Definition Qge_b (x y : Q) : bool := if Qlt_le_dec x y then false else true.
Definition Qlt_b (x y : Q) : bool := if Qlt_le_dec x y then true else false.

(** [SharkAI._preflop_decision] *)
Definition preflop_decision (available_names : list string) (amount_to_call : Z)
    (hand_strength : Q) (position : string) : Action * Z :=
  let adjusted_threshold := preflop_adjusted_threshold TIER3_THRESHOLD position in
  if Qlt_b hand_strength adjusted_threshold then
    if (amount_to_call <=? 0)%Z && name_in "check" available_names then (CHECK, 0%Z)
    else (FOLD, 0%Z)
  else if Qge_b hand_strength 0.80 then
    if name_in "raise" available_names then (RAISE, Z.max 40 (amount_to_call + 30))
    else if name_in "bet" available_names then (BET, 40%Z)
    else (FOLD, 0%Z)
  else if Qge_b hand_strength 0.70 then
    if name_in position ["EP"; "MP"]%string then
      if (0 <? amount_to_call)%Z && name_in "call" available_names then (CALL, 0%Z)
      else if name_in "check" available_names then (CHECK, 0%Z)
      else if name_in "raise" available_names then (RAISE, 40%Z)
      else (FOLD, 0%Z)
    else
      if name_in "raise" available_names then (RAISE, 40%Z)
      else if name_in "call" available_names then (CALL, 0%Z)
      else (FOLD, 0%Z)
  else
    let played :=
      if name_in position ["CO"; "BTN"; "SB"]%string then
        if name_in "raise" available_names && (amount_to_call <=? 20)%Z
        then Some (RAISE, 40%Z)
        else if name_in "call" available_names && (amount_to_call <=? 20)%Z
        then Some (CALL, 0%Z)
        else None
      else None in
    match played with
    | Some r => r
    | None =>
      if (amount_to_call <=? 0)%Z && name_in "check" available_names then (CHECK, 0%Z)
      else (FOLD, 0%Z)
    end.

(** [SharkAI._calculate_postflop_weights]: the dictionary in its key order. *)
Definition calculate_postflop_weights (hand_strength draw_equity : Q) (config : Config)
  : list (string * Q) :=
  let total_equity := hand_strength * 0.7 + draw_equity * 0.3 in
  let bluff_freq := bluff_freq config in
  let '(f, ch, c, b, r) :=
    if Qlt_b 0.80 total_equity then (0, 0, 0.15, 0.35, 0.50)
    else if Qlt_b 0.60 total_equity then (0, 0.05, 0.25, 0.45, 0.25)
    else if Qlt_b 0.45 total_equity then (0.10, 0.30, 0.45, 0.15, 0)
    else if Qlt_b 0.30 total_equity || Qlt_b 0.15 draw_equity
    then (0.25, 0.30, 0.35, 0.08 * bluff_freq * 10, 0)
    else (0.55, 0.35, 0.08, 0.02 * bluff_freq * 10, 0) in
  [("fold", f); ("check", ch); ("call", c); ("bet", b); ("raise", r); ("all_in", 0)]%string.

(** The loop of [_weighted_choice] after [r = random.random() * total]. *)
Fixpoint pick (r cumulative : Q) (ws : list (string * Q)) : option string :=
  match ws with
  | [] => None
  | (a, w) :: ws' =>
      let cumulative' := cumulative + w in
      if Qle_bool r cumulative' then Some a else pick r cumulative' ws'
  end.

Definition last_key (ws : list (string * Q)) : string :=
  match rev ws with [] => "fold"%string | (a, _) :: _ => a end.

(** [SharkAI._weighted_choice]; [u] is the value of [random.random()]. *)
Definition weighted_choice (ws : list (string * Q)) (u : Q) : string :=
  let total := sumQ (map snd ws) in
  if Qeq_bool total 0 then "fold"%string
  else match pick (u * total) 0 ws with
       | Some a => a
       | None => last_key ws
       end.

(** [action_map.get(action_name, Action.FOLD)] *)
Definition action_of_name (s : string) : Action :=
  if String.eqb s "fold" then FOLD else if String.eqb s "check" then CHECK
  else if String.eqb s "call" then CALL else if String.eqb s "bet" then BET
  else if String.eqb s "raise" then RAISE else if String.eqb s "all_in" then ALL_IN
  else FOLD.

(** Python's [==] between a member of [Action] and a string.  [Action]
    (texas_holdem.utils.constants) is a plain [Enum], as the decisions'
    own conversion [str(a).lower().replace('action.', '')] shows: a member
    never compares equal to a string. *)
Definition action_eq_str (a : Action) (s : string) : bool := false.

(** [SharkAI._calculate_amount]: [action in ['fold', 'check', 'call']]
    and [action == 'all_in'] compare the [Action] with strings. *)
Definition calculate_amount (action : Action) (chips amount_to_call current_bet : Z)
    (hand_strength draw_equity : Q) (config : Config) (total_pot : Z) : Z :=
  if existsb (action_eq_str action) ["fold"; "check"; "call"]%string then 0%Z
  else if action_eq_str action "all_in" then chips
  else
    let total_pot := if (total_pot <=? 0)%Z then 100%Z else total_pot in
    let big_blind := 20%Z in
    let total_strength := hand_strength + draw_equity * 0.5 in
    let pot := inject_Z total_pot in
    if (current_bet =? 0)%Z then
      let bet_size :=
        if Qlt_b 0.80 total_strength then py_int (pot * 0.75)
        else if Qlt_b 0.60 total_strength then py_int (pot * 0.66)
        else if Qlt_b 0.25 draw_equity then py_int (pot * 0.60)
        else if Qlt_b 0.45 total_strength then py_int (pot * 0.33)
        else py_int (pot * 0.25) in
      Z.max (big_blind * 2) bet_size
    else
      let target_total :=
        if Qlt_b 0.80 total_strength then py_int (pot * 0.75)
        else if Qlt_b 0.60 total_strength then py_int (pot * 0.66)
        else if Qlt_b 0.25 draw_equity then py_int (pot * 0.60)
        else if Qlt_b 0.45 total_strength then py_int (pot * 0.50)
        else (current_bet + big_blind * 2)%Z in
      let raise_amount := Z.max 0 (target_total - current_bet) in
      let min_raise := (big_blind * 2)%Z in
      Z.max min_raise raise_amount.

(** The filtering step of [_postflop_decision]: [valid], with [fold]
    deleted when [check] is available. *)
Definition valid_weights (available_names : list string) (ws : list (string * Q))
  : list (string * Q) :=
  let valid := filter (fun kv => name_in (fst kv) available_names && Qlt_b 0 (snd kv)) ws in
  if name_in "check" available_names && dict_mem "fold" valid
  then filter (fun kv => negb (String.eqb (fst kv) "fold")) valid
  else valid.

(** Lines 549-583 of [_postflop_decision]: weights, filtering, sampling,
    sizing. *)
Definition postflop_sample (chips : Z) (available_names : list string)
    (amount_to_call current_bet : Z) (hand_strength draw_equity : Q)
    (config : Config) (total_pot : Z) (u : Q) : Action * Z :=
  let valid := valid_weights available_names
                 (calculate_postflop_weights hand_strength draw_equity config) in
  match valid with
  | [] => (FOLD, 0%Z)
  | _ =>
    let action := action_of_name (weighted_choice valid u) in
    (action, calculate_amount action chips amount_to_call current_bet
               hand_strength draw_equity config total_pot)
  end.

(** [SharkAI._postflop_decision] *)
Definition postflop_decision (chips : Z) (available_names : list string)
    (amount_to_call current_bet : Z) (hand_strength draw_equity total_equity : Q)
    (implied_calc : ImpliedOdds) (spr_guidance : SprGuidance) (config : Config)
    (total_pot : Z) (u : Q) : Action * Z :=
  if push_fold spr_guidance then
    if Qge_b total_equity (commit_threshold spr_guidance) then (ALL_IN, chips)
    else (FOLD, 0%Z)
  else
    let forced :=
      if Qlt_b 0.15 draw_equity then
        if io_should_call implied_calc && name_in "call" available_names
        then Some (CALL, 0%Z)
        else if Qlt_b 0.30 draw_equity && name_in "raise" available_names
                && Qlt_b hand_strength 0.5
        then Some (RAISE, Z.max 40 (current_bet + 20))
        else None
      else None in
    match forced with
    | Some r => r
    | None => postflop_sample chips available_names amount_to_call current_bet
                hand_strength draw_equity config total_pot u
    end.

(** [game_state.state] *)
Inductive GameState := PRE_FLOP | FLOP | TURN | RIVER | SHOWDOWN | OTHER_STATE.

(** [street_map.get(game_state.state, 'preflop')] *)
Definition street_of (st : GameState) : string :=
  match st with
  | PRE_FLOP => "preflop" | FLOP => "flop" | TURN => "turn"
  | RIVER => "river" | SHOWDOWN => "river" | OTHER_STATE => "preflop"
  end.

(** What [get_action] reads from the player and the betting round. *)
Record Request := mkRequest {
  rq_chips : Z;
  rq_is_dealer : bool;
  rq_is_small_blind : bool;
  rq_is_big_blind : bool;
  rq_active_chips : list Z;       (* chips of the active players *)
  rq_available : list string;     (* [available_names] *)
  rq_amount_to_call : Z;
  rq_current_bet : Z;
  rq_total_pot : Z;
  rq_hole : list Card;
  rq_community : list Card;
  rq_state : GameState;
  rq_hand_strength : Q;
  rq_win_probability : Q
}.

(** [self.effective_stack] as set by [get_action]. *)
Definition effective_stack_of (rq : Request) : Q :=
  let active := rq_active_chips rq in
  py_min (inject_Z (rq_chips rq))
    (inject_Z (fold_left Z.add active 0%Z)
     / inject_Z (Z.max 1 (Z.of_nat (length active) - 1))).

(** [SharkAI.get_action] with the current configuration of [s]; [u] is the
    value of [random.random()] used if the sampling step is reached.
    [None] is an exception: the [IndexError] of [identify_draws], or the
    [ZeroDivisionError] of [calculate_direct_odds] (and of
    [calculate_implied_odds]) when [total_pot + amount_to_call = 0]. *)
Definition get_action (s : Shark) (rq : Request) (u : Q) : option (Action * Z) :=
  let amount_to_call := rq_amount_to_call rq in
  let total_pot := rq_total_pot rq in
  let position := get_position (rq_is_dealer rq) (rq_is_small_blind rq) (rq_is_big_blind rq) in
  let effective_stack := effective_stack_of rq in
  let spr := calculate_spr effective_stack total_pot in
  match identify_draws (rq_hole rq) (rq_community rq) with
  | None => None
  | Some draws =>
    let draw_equity := calculate_total_equity draws in
    let street := street_of (rq_state rq) in
    let config := current_config s in
    let total_equity := rq_win_probability rq + draw_equity * 0.5 in
    match calculate_direct_odds amount_to_call total_pot with
    | None => None
    | Some _ =>
    match calculate_implied_odds amount_to_call total_pot
            effective_stack street draw_equity with
    | None => None
    | Some implied_calc =>
    let spr_guidance := get_strategy_by_spr spr (rq_hand_strength rq) draw_equity in
    match rq_state rq with
    | PRE_FLOP =>
        Some (preflop_decision (rq_available rq) amount_to_call
                (rq_hand_strength rq) position)
    | _ =>
        Some (postflop_decision (rq_chips rq) (rq_available rq) amount_to_call
                (rq_current_bet rq) (rq_hand_strength rq) draw_equity total_equity
                implied_calc spr_guidance config total_pot u)
    end
    end
    end
  end.

(** ** Bet sizing as the spec words it *)

(** The fraction table of the spec's pot-fraction model: [None] is the
    weakest band. *)
Definition spec_fraction (raise_case : bool) (total_strength draw_equity : Q) : option Q :=
  if Qlt_b 0.80 total_strength then Some 0.75
  else if Qlt_b 0.60 total_strength then Some 0.66
  else if Qlt_b 0.25 draw_equity then Some 0.60
  else if Qlt_b 0.45 total_strength then Some (if raise_case then 0.50 else 0.33)
  else None.

(** Sizing from the spec's sentences, with the fraction of the fourth band
    taken from [spec_fraction]: opening bet [max(2*bigBlind, pot*fraction)]
    (weakest band 0.25); facing a bet, target total from the same table
    (weakest band [currentBet + 2*bigBlind]) and increment
    [max(2*bigBlind, target - currentBet)]. *)
Definition spec_sizing (raise_fraction_4 : bool) (pot current_bet : Z)
    (total_strength draw_equity : Q) : Z :=
  let pot := if (pot <=? 0)%Z then 100%Z else pot in
  if (current_bet =? 0)%Z then
    Z.max 40 (match spec_fraction false total_strength draw_equity with
              | Some f => py_int (inject_Z pot * f)
              | None => py_int (inject_Z pot * 0.25)
              end)
  else
    let target := match spec_fraction raise_fraction_4 total_strength draw_equity with
                  | Some f => py_int (inject_Z pot * f)
                  | None => (current_bet + 40)%Z
                  end in
    Z.max 40 (target - current_bet).

(** The claim's reading: the raise target uses the opening table
    unchanged (0.33 in the fourth band). *)
Definition claimed_sizing := spec_sizing false.

(** The code's reading: the fourth band aims the raise at half the pot. *)
Definition amended_sizing := spec_sizing true.

(** * Properties *)

Example identify_draws_combo :
  option_map calculate_total_equity
    (identify_draws [mkCard "s" 14; mkCard "s" 13]
                    [mkCard "s" 12; mkCard "s" 11; mkCard "h" 2])
  = Some 0.54.
Proof. vm_compute. reflexivity. Qed.

(** ** Potential-odds contract *)




(** ** Stack-to-pot ratio *)

(** C7 (as stated, refuted): with an empty effective stack the ratio is 0
    for every positive pot, so it is not strictly decreasing in the pot. *)
Lemma calculate_spr_zero_stack_not_decreasing :
  ~ (forall (stack : Q) (p1 p2 : Z), (0 < p1 < p2)%Z ->
       exists q1 q2, calculate_spr stack p1 = Fin q1 /\
                     calculate_spr stack p2 = Fin q2 /\ q2 < q1).
Proof.
  intros H. destruct (H 0 10%Z 20%Z ltac:(lia)) as [q1 [q2 [H1 [H2 Hlt]]]].
  vm_compute in H1, H2. injection H1 as <-. injection H2 as <-.
  vm_compute in Hlt. discriminate.
Qed.

Lemma Qdiv_lt_pos (s a b : Q) : 0 < s -> 0 < a -> a < b -> s / b < s / a.
Proof.
  intros Hs Ha Hab. unfold Qdiv.
  apply (Qmult_lt_l _ _ _ Hs).
  apply (Qinv_lt_contravar _ _ Ha (Qlt_trans _ _ _ Ha Hab)). exact Hab.
Qed.

(** C7 (amended): for a positive effective stack [calculate_spr] is
    strictly decreasing in the pot over positive pots and infinite for
    pots [<= 0]; the regimes of [get_strategy_by_spr] are [spr > 15]
    (commit 0.75), [7 < spr <= 15] (0.65, so [spr = 15] gives 0.65),
    [3 < spr <= 7] (0.55) and [spr <= 3] (0.45), and [push_fold] is set
    exactly in the last one. *)
Theorem calculate_spr_regimes :
  (forall (stack : Q) (p1 p2 : Z), 0 < stack -> (0 < p1 < p2)%Z ->
     exists q1 q2, calculate_spr stack p1 = Fin q1 /\
                   calculate_spr stack p2 = Fin q2 /\ q2 < q1) /\
  (forall (stack : Q) (p : Z), (p <= 0)%Z -> calculate_spr stack p = PInf) /\
  (forall hs de, commit_threshold (get_strategy_by_spr (Fin 15) hs de) = 0.65) /\
  (forall q hs de, 15 < q -> commit_threshold (get_strategy_by_spr (Fin q) hs de) = 0.75) /\
  (forall q hs de, 7 < q -> q <= 15 -> commit_threshold (get_strategy_by_spr (Fin q) hs de) = 0.65) /\
  (forall q hs de, 3 < q -> q <= 7 -> commit_threshold (get_strategy_by_spr (Fin q) hs de) = 0.55) /\
  (forall q hs de, q <= 3 -> commit_threshold (get_strategy_by_spr (Fin q) hs de) = 0.45) /\
  (forall hs de, commit_threshold (get_strategy_by_spr PInf hs de) = 0.75) /\
  (forall spr hs de, push_fold (get_strategy_by_spr spr hs de) = negb (ext_gt spr 3)).
Proof.
  repeat split.
  - intros stack p1 p2 Hs Hp. unfold calculate_spr.
    replace (p1 <=? 0)%Z with false by (symmetry; apply Z.leb_gt; lia).
    replace (p2 <=? 0)%Z with false by (symmetry; apply Z.leb_gt; lia).
    eexists; eexists; split; [reflexivity | split; [reflexivity|]].
    apply Qdiv_lt_pos; [exact Hs | |].
    + unfold Qlt; simpl; lia.
    + rewrite <- Zlt_Qlt; lia.
  - intros stack p Hp. unfold calculate_spr.
    replace (p <=? 0)%Z with true by (symmetry; apply Z.leb_le; exact Hp). reflexivity.
  - intros q hs de H. unfold get_strategy_by_spr, ext_gt.
    destruct (Qlt_le_dec 15 q) as [_|H']; [reflexivity|].
    exfalso; apply (Qlt_not_le _ _ H H').
  - intros q hs de H1 H2. unfold get_strategy_by_spr, ext_gt.
    destruct (Qlt_le_dec 15 q) as [H'|_]; [exfalso; apply (Qlt_not_le _ _ H' H2)|].
    destruct (Qlt_le_dec 7 q) as [_|H']; [reflexivity|].
    exfalso; apply (Qlt_not_le _ _ H1 H').
  - intros q hs de H1 H2. unfold get_strategy_by_spr, ext_gt.
    destruct (Qlt_le_dec 15 q) as [H'|_];
      [exfalso; apply (Qlt_not_le _ _ H'); apply (Qle_trans _ 7); [exact H2 | discriminate]|].
    destruct (Qlt_le_dec 7 q) as [H'|_]; [exfalso; apply (Qlt_not_le _ _ H' H2)|].
    destruct (Qlt_le_dec 3 q) as [_|H']; [reflexivity|].
    exfalso; apply (Qlt_not_le _ _ H1 H').
  - intros q hs de H. unfold get_strategy_by_spr, ext_gt.
    destruct (Qlt_le_dec 15 q) as [H'|_];
      [exfalso; apply (Qlt_not_le _ _ H'); apply (Qle_trans _ 3); [exact H | discriminate]|].
    destruct (Qlt_le_dec 7 q) as [H'|_];
      [exfalso; apply (Qlt_not_le _ _ H'); apply (Qle_trans _ 3); [exact H | discriminate]|].
    destruct (Qlt_le_dec 3 q) as [H'|_]; [exfalso; apply (Qlt_not_le _ _ H' H)|].
    reflexivity.
  - intros spr hs de. unfold get_strategy_by_spr.
    destruct (ext_gt spr 15) eqn:E15.
    + destruct spr as [q|]; simpl in *; [|reflexivity].
      destruct (Qlt_le_dec 15 q) as [H|]; [|discriminate].
      destruct (Qlt_le_dec 3 q) as [|H']; [reflexivity|].
      exfalso; apply (Qlt_not_le _ _ H); apply (Qle_trans _ 3); [exact H' | discriminate].
    + destruct (ext_gt spr 7) eqn:E7.
      * destruct spr as [q|]; simpl in *; [|discriminate].
        destruct (Qlt_le_dec 7 q) as [H|]; [|discriminate].
        destruct (Qlt_le_dec 3 q) as [|H']; [reflexivity|].
        exfalso; apply (Qlt_not_le _ _ H); apply (Qle_trans _ 3); [exact H' | discriminate].
      * destruct (ext_gt spr 3); reflexivity.
Qed.

Lemma calculate_spr_regimes_witness :
  (exists q1 q2, calculate_spr 300 100 = Fin q1 /\ calculate_spr 300 200 = Fin q2 /\ q2 < q1) /\
  calculate_spr 300 0 = PInf /\
  commit_threshold (get_strategy_by_spr (Fin 20) 0.5 0) = 0.75 /\
  commit_threshold (get_strategy_by_spr (Fin 10) 0.5 0) = 0.65 /\
  commit_threshold (get_strategy_by_spr (Fin 5) 0.5 0) = 0.55 /\
  commit_threshold (get_strategy_by_spr (Fin 2) 0.5 0) = 0.45.
Proof.
  destruct calculate_spr_regimes as [H1 [H2 [_ [H4 [H5 [H6 [H7 _]]]]]]].
  split; [apply H1; [reflexivity | lia]|].
  split; [apply H2; lia|].
  split; [apply H4; reflexivity|].
  split; [apply H5; [reflexivity | discriminate]|].
  split; [apply H6; [reflexivity | discriminate]|].
  apply H7; discriminate.
Defined.

(** ** Position thresholds *)

(** C8 (code bug): [POSITION_MULTIPLIERS] is commented as EP "tighten"
    (0.70) and BTN "greatly loosen" (1.25), but [get_adjusted_threshold]
    multiplies the entry threshold by it, so for every positive base it
    gives BTN the higher threshold and EP the lower one.  The pre-community
    decision does not call it: its own table (EP 1.0, BTN 0.93) gives BTN
    a strictly lower threshold than EP for every positive base. *)
Theorem position_thresholds_btn_vs_ep (base : Q) :
  0 < base ->
  get_adjusted_threshold base "EP" < get_adjusted_threshold base "BTN" /\
  preflop_adjusted_threshold base "BTN" < preflop_adjusted_threshold base "EP".
Proof.
  intros H. split.
  - unfold get_adjusted_threshold, position_multiplier. simpl.
    rewrite !(Qmult_comm base). apply Qmult_lt_compat_r; [exact H | reflexivity].
  - unfold preflop_adjusted_threshold, preflop_position_multiplier. simpl.
    rewrite !(Qmult_comm base). apply Qmult_lt_compat_r; [exact H | reflexivity].
Qed.

Lemma position_thresholds_btn_vs_ep_witness :
  get_adjusted_threshold TIER3_THRESHOLD "EP" < get_adjusted_threshold TIER3_THRESHOLD "BTN" /\
  preflop_adjusted_threshold TIER3_THRESHOLD "BTN" < preflop_adjusted_threshold TIER3_THRESHOLD "EP".
Proof. apply position_thresholds_btn_vs_ep. reflexivity. Defined.

(** ** Total draw equity *)

Definition equities (d : Draws) : list Q := map (fun kd => equity (snd kd)) d.

Definition nonneg_draws (d : Draws) : Prop := Forall (fun kd => 0 <= equity (snd kd)) d.

Lemma py_max_ge_l (a b : Q) : a <= py_max a b.
Proof.
  unfold py_max. destruct (Qlt_le_dec a b) as [H|H]; [apply Qlt_le_weak; exact H | apply Qle_refl].
Qed.

Lemma py_max_ge_r (a b : Q) : b <= py_max a b.
Proof. unfold py_max. destruct (Qlt_le_dec a b); [apply Qle_refl | assumption]. Qed.

Lemma py_max_cases (a b : Q) : py_max a b = a \/ py_max a b = b.
Proof. unfold py_max. destruct (Qlt_le_dec a b); [right | left]; reflexivity. Qed.

Lemma py_max_list_ge_start (x : Q) (xs : list Q) : x <= py_max_list x xs.
Proof.
  unfold py_max_list. revert x. induction xs as [|y ys IH]; intros x; simpl.
  - apply Qle_refl.
  - apply (Qle_trans _ (py_max x y)); [apply py_max_ge_l | apply IH].
Qed.

Lemma py_max_list_upper (x : Q) (xs : list Q) :
  Forall (fun e => e <= py_max_list x xs) (x :: xs).
Proof.
  unfold py_max_list. revert x. induction xs as [|y ys IH]; intros x; simpl.
  - constructor; [apply Qle_refl | constructor].
  - specialize (IH (py_max x y)). inversion IH as [|? ? Hm Hrest]; subst.
    constructor; [|constructor].
    + apply (Qle_trans _ _ _ (py_max_ge_l x y) Hm).
    + apply (Qle_trans _ _ _ (py_max_ge_r x y) Hm).
    + exact Hrest.
Qed.

Lemma py_max_list_member (x : Q) (xs : list Q) : In (py_max_list x xs) (x :: xs).
Proof.
  unfold py_max_list. revert x. induction xs as [|y ys IH]; intros x; simpl.
  - left; reflexivity.
  - destruct (IH (py_max x y)) as [E|E].
    + rewrite <- E. destruct (py_max_cases x y) as [->| ->]; [left | right; left]; reflexivity.
    + right; right; exact E.
Qed.

Lemma dict_set_nonneg (k : string) (v : Draw) (d : Draws) :
  nonneg_draws d -> 0 <= equity v -> nonneg_draws (dict_set k v d).
Proof.
  unfold nonneg_draws. intros Hd Hv. induction Hd as [|[k' v'] d' Hh Ht IH]; simpl.
  - constructor; [exact Hv | constructor].
  - destruct (String.eqb k k'); constructor; auto.
Qed.

Lemma fold_left_nonneg {A : Type} (f : Draws -> A -> Draws) (l : list A) (d : Draws) :
  (forall d' a, nonneg_draws d' -> nonneg_draws (f d' a)) ->
  nonneg_draws d -> nonneg_draws (fold_left f l d).
Proof.
  intros Hf. revert d. induction l as [|a l IH]; intros d Hd; simpl; [exact Hd|].
  apply IH, Hf, Hd.
Qed.

Lemma nonneg_draws_if (b : bool) (x y : Draws) :
  nonneg_draws x -> nonneg_draws y -> nonneg_draws (if b then x else y).
Proof. destruct b; auto. Qed.

Ltac nonneg_draws_step :=
  match goal with
  | |- nonneg_draws [] => constructor
  | |- nonneg_draws (dict_set _ _ _) => apply dict_set_nonneg
  | |- nonneg_draws (fold_left _ _ _) =>
      apply fold_left_nonneg; [intros ? ? ?; cbv beta|]
  | |- nonneg_draws (if ?b then _ else _) => apply nonneg_draws_if
  | |- nonneg_draws (let _ := _ in _) => cbv zeta
  | |- 0 <= equity (mkDraw _ (inject_Z (Z.of_nat _) * _)) =>
      simpl; apply Qmult_le_0_compat; [unfold Qle; simpl; lia | discriminate]
  | |- 0 <= equity (mkDraw _ _) => simpl; discriminate
  | H : nonneg_draws ?d |- nonneg_draws ?d => exact H
  end.

Lemma identify_draws_nonneg (hole comm : list Card) (d : Draws) :
  identify_draws hole comm = Some d -> nonneg_draws d.
Proof.
  unfold identify_draws. destruct comm as [|cc ccs].
  - intros H; injection H as <-; constructor.
  - cbv zeta. destruct (sorted_desc (map value hole)) as [|h0 hs]; [discriminate|].
    intros H; injection H as <-.
    repeat nonneg_draws_step.
Qed.

(** C9: [calculate_total_equity] is 0 on an empty map; on a non-empty map
    it is the equity of one of the findings and at least the equity of
    every finding (a maximum, not a sum); and on every map built by
    [identify_draws] it is non-negative. *)
Theorem calculate_total_equity_max (d : Draws) :
  (d = [] -> calculate_total_equity d = 0) /\
  (d <> [] -> In (calculate_total_equity d) (equities d) /\
              Forall (fun e => e <= calculate_total_equity d) (equities d)) /\
  (forall hole comm, identify_draws hole comm = Some d -> 0 <= calculate_total_equity d).
Proof.
  split; [intros ->; reflexivity|]. split.
  - intros Hne. destruct d as [|[k v] rest]; [contradiction|].
    split; [apply py_max_list_member | apply py_max_list_upper].
  - intros hole comm H. apply identify_draws_nonneg in H.
    destruct d as [|[k v] rest]; [apply Qle_refl|].
    inversion H as [|? ? Hv _]; subst. simpl.
    apply (Qle_trans _ _ _ Hv). apply py_max_list_ge_start.
Qed.

Lemma calculate_total_equity_max_witness :
  calculate_total_equity [] = 0 /\
  In (calculate_total_equity [("oesd", mkDraw 8 0.31); ("flush_draw", mkDraw 9 0.35)]%string)
     (equities [("oesd", mkDraw 8 0.31); ("flush_draw", mkDraw 9 0.35)]%string) /\
  0 <= calculate_total_equity [("flush_draw", mkDraw 9 0.35); ("oesd", mkDraw 8 0.31);
                               ("overcards", mkDraw 6 (inject_Z 2 * 0.12));
                               ("combo_draw", mkDraw 15 0.54)]%string.
Proof.
  split; [apply (proj1 (calculate_total_equity_max [])); reflexivity|].
  split; [apply (proj1 (proj2 (calculate_total_equity_max _))); discriminate|].
  apply (proj2 (proj2 (calculate_total_equity_max _)))
    with (hole := [mkCard "s" 14; mkCard "s" 13])
         (comm := [mkCard "s" 12; mkCard "s" 11; mkCard "h" 2]).
  vm_compute. reflexivity.
Defined.

(** ** Bet sizing *)

(** C4 (as stated, refuted): pot 200, strength 0.5, no draw, facing a bet
    of 40: the code aims the raise at [int(200*0.50) = 100] and raises by
    60, the same-table reading aims at [int(200*0.33) = 66] and raises by
    [max(40, 26) = 40]. *)
Lemma calculate_amount_medium_raise_differs :
  calculate_amount RAISE 1000 40 40 0.5 0 base_config 200 = 60%Z /\
  claimed_sizing 200 40 (0.5 + 0 * 0.5) 0 = 40%Z.
Proof. split; reflexivity. Qed.

(** C4 (amended): bets and raises are sized by the pot-fraction model
    with combined strength [hand_strength + 0.5 * draw_equity] (pot
    defaulting to 100 when [<= 0]); opening fractions 0.75/0.66/0.60/0.33/0.25,
    raise targets 0.75/0.66/0.60/0.50 of the pot or [currentBet + 40], and
    increment [max(40, target - currentBet)]; with pot 200 and strength 0.85
    the opening bet is 150 and the raise over 40 is 110. *)
Theorem calculate_amount_pot_fraction (a : Action) (chips amount_to_call current_bet : Z)
    (hand_strength draw_equity : Q) (config : Config) (total_pot : Z) :
  (a = BET \/ a = RAISE) ->
  calculate_amount a chips amount_to_call current_bet hand_strength draw_equity config total_pot
  = amended_sizing total_pot current_bet (hand_strength + draw_equity * 0.5) draw_equity /\
  calculate_amount a chips amount_to_call 0 0.85 0 config 200 = 150%Z /\
  calculate_amount a chips amount_to_call 40 0.85 0 config 200 = 110%Z.
Proof.
  intros Ha.
  assert (Hn : existsb (action_eq_str a) ["fold"; "check"; "call"]%string = false /\
               action_eq_str a "all_in" = false)
    by (destruct Ha as [-> | ->]; split; reflexivity).
  destruct Hn as [Hn1 Hn2].
  unfold calculate_amount. rewrite Hn1, Hn2.
  split; [|split; reflexivity].
  unfold amended_sizing, spec_sizing, spec_fraction. cbv zeta.
  set (ts := hand_strength + draw_equity * 0.5).
  destruct (Qlt_b 0.80 ts), (Qlt_b 0.60 ts), (Qlt_b 0.25 draw_equity), (Qlt_b 0.45 ts);
    destruct (current_bet =? 0)%Z; lia.
Qed.

Lemma calculate_amount_pot_fraction_witness :
  calculate_amount RAISE 1000 40 40 0.5 0 base_config 200
  = amended_sizing 200 40 (0.5 + 0 * 0.5) 0 /\
  calculate_amount BET 1000 0 0 0.85 0 base_config 200 = 150%Z /\
  calculate_amount RAISE 1000 40 40 0.85 0 base_config 200 = 110%Z.
Proof.
  split; [apply (calculate_amount_pot_fraction RAISE); right; reflexivity|].
  split; [apply (calculate_amount_pot_fraction BET 1000 0 0 0 0 base_config 0); left; reflexivity|].
  apply (calculate_amount_pot_fraction RAISE 1000 40 0 0 0 base_config 0); right; reflexivity.
Defined.

(** ** Draw step of the post-community decision *)

Lemma Qlt_b_true (x y : Q) : x < y -> Qlt_b x y = true.
Proof.
  unfold Qlt_b. destruct (Qlt_le_dec x y) as [_|H']; [reflexivity|].
  intros H. exfalso. apply (Qlt_not_le _ _ H H').
Qed.

(** C2 (as stated, refuted): no post-community request meeting both the
    call-on-odds condition and the semi-bluff condition, with call and raise
    both legal, ends in a raise: the call returns first. *)
Lemma postflop_decision_call_never_overridden :
  ~ exists chips available_names amount_to_call current_bet hand_strength draw_equity
      total_equity implied_calc spr_guidance config total_pot u,
      push_fold spr_guidance = false /\ 0.30 < draw_equity /\ hand_strength < 0.5 /\
      io_should_call implied_calc = true /\
      name_in "call" available_names = true /\ name_in "raise" available_names = true /\
      fst (postflop_decision chips available_names amount_to_call current_bet hand_strength
             draw_equity total_equity implied_calc spr_guidance config total_pot u) = RAISE.
Proof.
  intros (chips & av & atc & cb & hs & de & te & ic & sg & cfg & pot & u &
          Hpf & Hde & Hhs & Hsc & Hcall & Hraise & Hres).
  unfold postflop_decision in Hres. rewrite Hpf in Hres.
  rewrite (Qlt_b_true 0.15 de) in Hres
    by (apply (Qlt_trans _ 0.30); [reflexivity | exact Hde]).
  rewrite Hsc, Hcall in Hres. discriminate.
Qed.

(** C2 (amended): in the post-community decision, outside push-or-fold and
    with [draw_equity > 0.15], the engine calls whenever the implied odds say
    [should_call] and call is legal; only otherwise, when
    [draw_equity > 0.30], raise is legal and [hand_strength < 0.5], does it
    raise (semi-bluff) by [max(40, current_bet + 20)]. *)
Theorem postflop_decision_draw_step (chips : Z) (available_names : list string)
    (amount_to_call current_bet : Z) (hand_strength draw_equity total_equity : Q)
    (implied_calc : ImpliedOdds) (spr_guidance : SprGuidance) (config : Config)
    (total_pot : Z) (u : Q) :
  push_fold spr_guidance = false -> 0.15 < draw_equity ->
  let r := postflop_decision chips available_names amount_to_call current_bet hand_strength
             draw_equity total_equity implied_calc spr_guidance config total_pot u in
  (io_should_call implied_calc && name_in "call" available_names = true -> r = (CALL, 0%Z)) /\
  (io_should_call implied_calc && name_in "call" available_names = false ->
   0.30 < draw_equity -> name_in "raise" available_names = true -> hand_strength < 0.5 ->
   r = (RAISE, Z.max 40 (current_bet + 20))).
Proof.
  intros Hpf Hde r. subst r. unfold postflop_decision.
  rewrite Hpf, (Qlt_b_true _ _ Hde). split.
  - intros H. rewrite H. reflexivity.
  - intros H H30 Hr Hhs. rewrite H, (Qlt_b_true _ _ H30), Hr, (Qlt_b_true _ _ Hhs).
    reflexivity.
Qed.

Lemma postflop_decision_draw_step_witness :
  exists ic,
    calculate_implied_odds 20 100 1000 "flop" 0.54 = Some ic /\
    postflop_decision 1000 ["fold"; "call"; "raise"]%string 20 20 0.3 0.54 0.57 ic
      (get_strategy_by_spr (Fin 10) 0.3 0.54) base_config 100 0 = (CALL, 0%Z) /\
    postflop_decision 1000 ["fold"; "raise"]%string 20 20 0.3 0.54 0.57 ic
      (get_strategy_by_spr (Fin 10) 0.3 0.54) base_config 100 0 = (RAISE, 40%Z).
Proof.
  destruct (calculate_implied_odds 20 100 1000 "flop" 0.54) as [ic|] eqn:Eic;
    [|vm_compute in Eic; discriminate].
  assert (Hsc : io_should_call ic = true).
  { vm_compute in Eic.
    assert (Hsome : forall x y : ImpliedOdds, Some x = Some y -> x = y) by congruence.
    apply Hsome in Eic. subst ic. reflexivity. }
  exists ic. split; [reflexivity|]. split.
  - apply (postflop_decision_draw_step 1000 ["fold"; "call"; "raise"]%string 20 20 0.3 0.54 0.57
             _ _ base_config 100 0); [reflexivity | reflexivity | rewrite Hsc; reflexivity].
  - apply (postflop_decision_draw_step 1000 ["fold"; "raise"]%string 20 20 0.3 0.54 0.57
             _ _ base_config 100 0); [reflexivity | reflexivity | rewrite Hsc; reflexivity
             | reflexivity | reflexivity | reflexivity].
Defined.

(** ** Weighted sampling *)

Definition action_names : list string := ["fold"; "check"; "call"; "bet"; "raise"; "all_in"]%string.

Lemma action_of_name_name (a : string) :
  In a action_names -> action_name (action_of_name a) = a.
Proof. unfold action_names. simpl. intros H. repeat destruct H as [<-|H]; try reflexivity. destruct H. Qed.

Lemma postflop_weights_keys (hs de : Q) (config : Config) (kv : string * Q) :
  In kv (calculate_postflop_weights hs de config) ->
  In (fst kv) action_names /\ (fst kv = "all_in"%string -> snd kv = 0).
Proof.
  unfold calculate_postflop_weights.
  cbv zeta.
  repeat match goal with |- context [match ?t with (x, y) => _ end] => destruct t end.
  simpl. intros H. repeat destruct H as [<-|H]; try (split; [simpl; tauto | discriminate]).
  - split; [simpl; tauto | reflexivity].
  - destruct H.
Qed.

Lemma valid_weights_sub (available_names : list string) (ws : list (string * Q)) (kv : string * Q) :
  In kv (valid_weights available_names ws) -> In kv ws /\ 0 < snd kv.
Proof.
  unfold valid_weights.
  assert (Hf : In kv (filter (fun kv => name_in (fst kv) available_names && Qlt_b 0 (snd kv)) ws) ->
               In kv ws /\ 0 < snd kv).
  { intros H. apply filter_In in H. destruct H as [Hin Hb]. split; [exact Hin|].
    apply andb_true_iff in Hb. destruct Hb as [_ Hb]. unfold Qlt_b in Hb.
    destruct (Qlt_le_dec 0 (snd kv)); [assumption | discriminate]. }
  destruct (_ && _); [|exact Hf].
  intros H. apply filter_In in H. apply Hf, H.
Qed.

Lemma dict_mem_false_not_in {V : Type} (k : string) (l : list (string * V)) :
  dict_mem k l = false -> ~ In k (map fst l).
Proof.
  unfold dict_mem. induction l as [|[k' v] l IH]; intros Hm Hin; [destruct Hin|].
  cbn [dict_get] in Hm. destruct (String.eqb k k') eqn:E; [discriminate|].
  destruct Hin as [Hk|Hin].
  - simpl in Hk. subst k'. rewrite String.eqb_refl in E. discriminate.
  - apply (IH Hm Hin).
Qed.

Lemma valid_weights_no_fold (available_names : list string) (ws : list (string * Q)) :
  name_in "check" available_names = true ->
  ~ In "fold"%string (map fst (valid_weights available_names ws)).
Proof.
  intros Hc. unfold valid_weights. rewrite Hc. simpl.
  destruct (dict_mem "fold" _) eqn:Hm.
  - rewrite in_map_iff. intros [kv [Hk Hin]]. apply filter_In in Hin.
    destruct Hin as [_ Hb]. rewrite Hk in Hb. discriminate.
  - apply dict_mem_false_not_in, Hm.
Qed.

Lemma pick_in (r c : Q) (ws : list (string * Q)) (a : string) :
  pick r c ws = Some a -> In a (map fst ws).
Proof.
  revert c. induction ws as [|[k w] ws IH]; intros c; simpl; [discriminate|].
  destruct (Qle_bool r (c + w)); [intros H; injection H as <-; left; reflexivity|].
  intros H; right; apply (IH _ H).
Qed.

Lemma last_key_in (ws : list (string * Q)) : ws <> [] -> In (last_key ws) (map fst ws).
Proof.
  intros Hne. unfold last_key.
  destruct (rev ws) as [|[k w] rest] eqn:E.
  - exfalso. apply Hne. rewrite <- (rev_involutive ws), E. reflexivity.
  - rewrite <- (rev_involutive ws), E. simpl. rewrite map_app. apply in_or_app. right. left. reflexivity.
Qed.

Lemma fold_left_Qplus_pos (xs : list Q) (acc : Q) :
  0 <= acc -> Forall (fun x => 0 < x) xs -> xs <> [] -> 0 < fold_left Qplus xs acc.
Proof.
  revert acc. induction xs as [|x xs IH]; intros acc Hacc Hxs Hne; [contradiction|].
  inversion Hxs as [|? ? Hx Hrest]; subst. simpl.
  destruct xs as [|y ys].
  - simpl. apply (Qlt_le_trans _ (0 + x)); [rewrite Qplus_0_l; exact Hx|].
    apply Qplus_le_compat; [exact Hacc | apply Qle_refl].
  - apply IH; [| exact Hrest | discriminate].
    apply (Qle_trans _ (0 + 0)); [apply Qle_refl|].
    apply Qplus_le_compat; [exact Hacc | apply Qlt_le_weak; exact Hx].
Qed.

Lemma weighted_choice_in (ws : list (string * Q)) (u : Q) :
  ws <> [] -> (forall kv, In kv ws -> 0 < snd kv) ->
  In (weighted_choice ws u) (map fst ws).
Proof.
  intros Hne Hpos. unfold weighted_choice.
  assert (Htot : 0 < sumQ (map snd ws)).
  { unfold sumQ. apply fold_left_Qplus_pos; [apply Qle_refl | |].
    - apply Forall_forall. intros x Hx. apply in_map_iff in Hx.
      destruct Hx as [kv [<- Hkv]]. apply Hpos, Hkv.
    - destruct ws; [contradiction | discriminate]. }
  destruct (Qeq_bool (sumQ (map snd ws)) 0) eqn:E.
  - apply Qeq_bool_eq in E. rewrite E in Htot. discriminate.
  - destruct (pick _ 0 ws) eqn:Ep; [apply (pick_in _ _ _ _ Ep) | apply last_key_in, Hne].
Qed.

(** The action sampled from a non-empty [valid] set is one of its keys. *)
Lemma postflop_sample_key (chips : Z) (available_names : list string)
    (amount_to_call current_bet : Z) (hand_strength draw_equity : Q)
    (config : Config) (total_pot : Z) (u : Q) :
  let valid := valid_weights available_names
                 (calculate_postflop_weights hand_strength draw_equity config) in
  valid <> [] ->
  exists a, In a (map fst valid) /\ In a action_names /\ a <> "all_in"%string /\
    fst (postflop_sample chips available_names amount_to_call current_bet hand_strength
           draw_equity config total_pot u) = action_of_name a.
Proof.
  intros valid Hne. unfold postflop_sample. fold valid.
  destruct valid as [|kv rest] eqn:Ev; [contradiction|]. rewrite <- Ev in *.
  exists (weighted_choice valid u).
  assert (Hin : In (weighted_choice valid u) (map fst valid)).
  { apply weighted_choice_in; [exact Hne|]. intros kv' H. apply (valid_weights_sub _ _ _ H). }
  apply in_map_iff in Hin as Hin'. destruct Hin' as [kv' [Hk Hkv]].
  apply valid_weights_sub in Hkv as [Hw Hpos].
  apply postflop_weights_keys in Hw as [Hnames Hall].
  split; [exact Hin|]. split; [rewrite <- Hk; exact Hnames|].
  split; [|reflexivity].
  intros Ha. rewrite <- Hk in Ha. rewrite (Hall Ha) in Hpos. discriminate.
Qed.

(** ** Fold avoidance *)

(** A flop decision for a short stack (stack 100 into a pot of 100, so
    SPR 1) holding 7-2 offsuit on 9-J-4, checked to: checking is legal and
    costs nothing. *)
Definition short_stack_flop (win_probability : Q) : Request :=
  mkRequest 100 false false false [100; 100]%Z ["check"; "bet"; "fold"]%string 0 0 100
    [mkCard "h" 2; mkCard "d" 7] [mkCard "s" 9; mkCard "c" 11; mkCard "h" 4]
    FLOP 0.1 win_probability.

(** A pre-flop decision for the big blind holding A-K suited after the
    small blind completed: nothing to call, and the legal actions are
    [available]. *)
Definition bb_preflop (available : list string) (hand_strength : Q) : Request :=
  mkRequest 1000 false false true [1000; 1000]%Z available 0 20 40
    [mkCard "s" 14; mkCard "s" 13] [] PRE_FLOP hand_strength 0.6.

Lemma Qlt_b_false (x y : Q) : Qlt_b x y = false <-> y <= x.
Proof.
  unfold Qlt_b. destruct (Qlt_le_dec x y) as [H|H]; split; intros E;
    try discriminate; try reflexivity; try exact H.
  exfalso. apply (Qlt_not_le _ _ H E).
Qed.

Lemma Qge_b_true (x y : Q) : Qge_b x y = true <-> y <= x.
Proof.
  unfold Qge_b. destruct (Qlt_le_dec x y) as [H|H]; split; intros E;
    try discriminate; try reflexivity; try exact H.
  exfalso. apply (Qlt_not_le _ _ H E).
Qed.

Lemma Qge_b_false (x y : Q) : Qge_b x y = false <-> x < y.
Proof.
  unfold Qge_b. destruct (Qlt_le_dec x y) as [H|H]; split; intros E;
    try discriminate; try reflexivity; try exact H.
  exfalso. apply (Qlt_not_le _ _ E H).
Qed.

(** In the push-or-fold regime the engine folds although check is
    legal. *)
Lemma get_action_folds_with_free_check :
  name_in "check" (rq_available (short_stack_flop 0.1)) = true /\
  get_action init_shark (short_stack_flop 0.1) 0 = Some (FOLD, 0%Z).
Proof. split; vm_compute; reflexivity. Qed.

(** In the post-community weighted-sampling step, when check is legal,
    fold is never among the weighted candidates, and the step returns fold
    exactly when no candidate is left. *)
Theorem postflop_sample_no_fold_when_check (chips : Z) (available_names : list string)
    (amount_to_call current_bet : Z) (hand_strength draw_equity : Q)
    (config : Config) (total_pot : Z) (u : Q) :
  name_in "check" available_names = true ->
  let valid := valid_weights available_names
                 (calculate_postflop_weights hand_strength draw_equity config) in
  ~ In "fold"%string (map fst valid) /\
  (fst (postflop_sample chips available_names amount_to_call current_bet hand_strength
          draw_equity config total_pot u) = FOLD <-> valid = []).
Proof.
  intros Hc valid. split; [apply valid_weights_no_fold, Hc|]. split.
  - intros Hf. destruct valid as [|kv rest] eqn:Ev; [reflexivity|]. exfalso.
    assert (Hne : valid <> []) by (rewrite Ev; discriminate).
    destruct (postflop_sample_key chips available_names amount_to_call current_bet
                hand_strength draw_equity config total_pot u Hne)
      as [a [Hin [Hnames [_ Ha]]]].
    rewrite Hf in Ha. apply (f_equal action_name) in Ha.
    rewrite action_of_name_name in Ha by exact Hnames. simpl in Ha. subst a.
    exact (valid_weights_no_fold _ _ Hc Hin).
  - intros He. unfold postflop_sample. fold valid. rewrite He. reflexivity.
Qed.

Lemma postflop_sample_no_fold_when_check_witness :
  ~ In "fold"%string (map fst (valid_weights ["check"; "bet"; "fold"]%string
                                (calculate_postflop_weights 0.1 0 base_config))) /\
  (fst (postflop_sample 100 ["check"; "bet"; "fold"]%string 0 0 0.1 0 base_config 100 0) = FOLD
   <-> valid_weights ["check"; "bet"; "fold"]%string
         (calculate_postflop_weights 0.1 0 base_config) = []).
Proof.
  apply (postflop_sample_no_fold_when_check 100 ["check"; "bet"; "fold"]%string 0 0 0.1 0
           base_config 100 0).
  reflexivity.
Defined.

(** C3 (code bug): with check legal and nothing to call, the
    pre-community decision folds exactly when the hand clears the entry
    threshold but its tier finds none of the actions it looks for: a hand
    of at least 0.80 with neither raise nor bet legal, or a hand in
    [0.70, 0.80) outside EP/MP with neither raise nor call legal.  It then
    falls through to the final [return Action.FOLD, 0] (line 523), where
    the sibling paths (lines 482 and 518) check.  Through [get_action]:
    the big blind folds A-K (0.85) when only check is legal, and a 0.75
    hand with check, bet and fold legal. *)
Theorem preflop_decision_folds_with_free_check (available_names : list string)
    (hand_strength : Q) (position : string) :
  name_in "check" available_names = true ->
  (fst (preflop_decision available_names 0 hand_strength position) = FOLD <->
   preflop_adjusted_threshold TIER3_THRESHOLD position <= hand_strength /\
   ((0.80 <= hand_strength /\
     name_in "raise" available_names = false /\ name_in "bet" available_names = false) \/
    (0.70 <= hand_strength /\ hand_strength < 0.80 /\
     name_in position ["EP"; "MP"]%string = false /\
     name_in "raise" available_names = false /\ name_in "call" available_names = false))) /\
  get_action init_shark (bb_preflop ["check"]%string 0.85) 0 = Some (FOLD, 0%Z) /\
  get_action init_shark (bb_preflop ["check"; "bet"; "fold"]%string 0.75) 0
  = Some (FOLD, 0%Z).
Proof.
  intros Hc. split; [|split; vm_compute; reflexivity].
  unfold preflop_decision. cbv zeta.
  destruct (Qlt_b hand_strength (preflop_adjusted_threshold TIER3_THRESHOLD position)) eqn:Et.
  - simpl. rewrite Hc. split; [discriminate|]. intros [Hle _].
    apply Qlt_b_false in Hle. congruence.
  - apply Qlt_b_false in Et.
    destruct (Qge_b hand_strength 0.80) eqn:E80.
    + apply Qge_b_true in E80.
      destruct (name_in "raise" available_names) eqn:Er;
        [split; [discriminate|]; intros [_ [[_ [H _]]|[_ [_ [_ [H _]]]]]]; discriminate H|].
      destruct (name_in "bet" available_names) eqn:Eb.
      * split; [discriminate|]. intros [_ [[_ [_ H]]|[_ [H _]]]];
          [discriminate H | destruct (Qlt_not_le _ _ H E80)].
      * split; [intros _; split; [exact Et | left; tauto] | reflexivity].
    + apply Qge_b_false in E80.
      assert (Hn80 : ~ 0.80 <= hand_strength) by (intros H; exact (Qlt_not_le _ _ E80 H)).
      destruct (Qge_b hand_strength 0.70) eqn:E70.
      * apply Qge_b_true in E70.
        destruct (name_in position ["EP"; "MP"]%string) eqn:Ep.
        -- simpl. rewrite Hc. split; [discriminate|].
           intros [_ [[H _]|[_ [_ [H _]]]]]; [destruct (Hn80 H) | discriminate H].
        -- destruct (name_in "raise" available_names) eqn:Er;
             [split; [discriminate|]; intros [_ [[H _]|[_ [_ [_ [H _]]]]]];
              [destruct (Hn80 H) | discriminate H]|].
           destruct (name_in "call" available_names) eqn:Ecl.
           ++ split; [discriminate|].
              intros [_ [[H _]|[_ [_ [_ [_ H]]]]]]; [destruct (Hn80 H) | discriminate H].
           ++ split; [intros _; split; [exact Et | right; tauto] | reflexivity].
      * apply Qge_b_false in E70.
        assert (Hn70 : ~ 0.70 <= hand_strength) by (intros H; exact (Qlt_not_le _ _ E70 H)).
        assert (Hr : ~ (preflop_adjusted_threshold TIER3_THRESHOLD position <= hand_strength /\
                        ((0.80 <= hand_strength /\
                          name_in "raise" available_names = false /\
                          name_in "bet" available_names = false) \/
                         (0.70 <= hand_strength /\ hand_strength < 0.80 /\
                          name_in position ["EP"; "MP"]%string = false /\
                          name_in "raise" available_names = false /\
                          name_in "call" available_names = false))))
          by (intros [_ [[H _]|[H _]]]; [exact (Hn80 H) | exact (Hn70 H)]).
        split; [|intros H; contradiction].
        destruct (name_in position ["CO"; "BTN"; "SB"]%string);
          [destruct (name_in "raise" available_names && (0 <=? 20)%Z);
           [discriminate|destruct (name_in "call" available_names && (0 <=? 20)%Z);
                         [discriminate|]]|];
          simpl; rewrite Hc; discriminate.
Qed.

Lemma preflop_decision_folds_with_free_check_witness :
  fst (preflop_decision ["check"]%string 0 0.85 "BB") = FOLD /\
  get_action init_shark (bb_preflop ["check"]%string 0.85) 0 = Some (FOLD, 0%Z).
Proof.
  destruct (preflop_decision_folds_with_free_check ["check"]%string 0.85 "BB" eq_refl)
    as [Hiff [Hg _]].
  split; [|exact Hg].
  apply Hiff. split; [vm_compute; intros H; discriminate H|].
  left. split; [vm_compute; intros H; discriminate H | split; reflexivity].
Defined.

(** ** All-in only through push-or-fold *)

(** C10 (as stated, refuted): the push-or-fold branch compares
    [win_probability + 0.5 * draw_equity], not the combined equity
    [hand_strength * 0.7 + draw_equity * 0.3], with the commit threshold:
    here the combined equity is 0.07, below 0.45, and the engine goes
    all-in. *)
Lemma get_action_all_in_below_combined_equity :
  get_action init_shark (short_stack_flop 0.9) 0 = Some (ALL_IN, 100%Z) /\
  option_map (fun d => rq_hand_strength (short_stack_flop 0.9) * 0.7
                       + calculate_total_equity d * 0.3)
    (identify_draws (rq_hole (short_stack_flop 0.9)) (rq_community (short_stack_flop 0.9)))
  = Some (0.1 * 0.7 + 0 * 0.3) /\
  0.1 * 0.7 + 0 * 0.3 < 0.45.
Proof. split; [|split]; vm_compute; reflexivity. Qed.

Lemma preflop_decision_not_all_in (available_names : list string) (amount_to_call : Z)
    (hand_strength : Q) (position : string) :
  fst (preflop_decision available_names amount_to_call hand_strength position) <> ALL_IN.
Proof.
  unfold preflop_decision. cbv zeta.
  repeat match goal with
         | |- context [if ?b then _ else _] => destruct b
         | |- context [match ?o with Some _ => _ | None => _ end] => destruct o
         end; simpl; discriminate.
Qed.

(** C10 (amended): the pre-community decision never returns all-in, the
    post-community weighted-sampling step never selects it (its weight is
    0 in every band), and [get_action] returns all-in only after the
    pre-community phase, in the push-or-fold regime (SPR <= 3), when
    [win_probability + 0.5 * draw_equity] reaches the commit threshold;
    the amount is then the whole stack. *)
Theorem get_action_all_in_only_push_fold :
  (forall available_names amount_to_call hand_strength position,
     fst (preflop_decision available_names amount_to_call hand_strength position) <> ALL_IN) /\
  (forall chips available_names amount_to_call current_bet hand_strength draw_equity
          config total_pot u,
     fst (postflop_sample chips available_names amount_to_call current_bet hand_strength
            draw_equity config total_pot u) <> ALL_IN) /\
  (forall s rq u r, get_action s rq u = Some r -> fst r = ALL_IN ->
     rq_state rq <> PRE_FLOP /\
     exists draws,
       identify_draws (rq_hole rq) (rq_community rq) = Some draws /\
       let de := calculate_total_equity draws in
       let g := get_strategy_by_spr (calculate_spr (effective_stack_of rq) (rq_total_pot rq))
                  (rq_hand_strength rq) de in
       push_fold g = true /\
       commit_threshold g <= rq_win_probability rq + de * 0.5 /\
       snd r = rq_chips rq).
Proof.
  assert (Hsample : forall chips available_names amount_to_call current_bet hand_strength
                      draw_equity config total_pot u,
     fst (postflop_sample chips available_names amount_to_call current_bet hand_strength
            draw_equity config total_pot u) <> ALL_IN).
  { intros chips av atc cb hs de cfg pot u.
    destruct (valid_weights av (calculate_postflop_weights hs de cfg)) eqn:Ev.
    - unfold postflop_sample. rewrite Ev. discriminate.
    - assert (Hne : valid_weights av (calculate_postflop_weights hs de cfg) <> [])
        by (rewrite Ev; discriminate).
      destruct (postflop_sample_key chips av atc cb hs de cfg pot u Hne)
        as [a [_ [Hnames [Hna Ha]]]].
      rewrite Ha. intros Hall. apply (f_equal action_name) in Hall.
      rewrite action_of_name_name in Hall by exact Hnames. apply Hna. exact Hall. }
  split; [exact preflop_decision_not_all_in|]. split; [exact Hsample|].
  intros s rq u r Hget Hr. unfold get_action in Hget.
  destruct (identify_draws (rq_hole rq) (rq_community rq)) as [draws|] eqn:Ed; [|discriminate].
  destruct (calculate_direct_odds _ _) as [direct_odds|]; [|discriminate].
  destruct (calculate_implied_odds _ _ _ _ _) as [implied_calc|]; [|discriminate].
  destruct (rq_state rq) eqn:Est;
    try (injection Hget as <-; exfalso; apply (preflop_decision_not_all_in _ _ _ _ Hr)).
  all: injection Hget as <-; split; [discriminate|]; exists draws; split; [reflexivity|].
  all: cbv zeta; unfold postflop_decision in Hr |- *.
  all: destruct (push_fold _) eqn:Hpf.
  all: try (destruct (Qge_b _ _) eqn:Hge; [|discriminate];
            split; [reflexivity|]; split; [|reflexivity];
            unfold Qge_b in Hge; destruct (Qlt_le_dec _ _); [discriminate | assumption]).
  all: exfalso; revert Hr;
       repeat match goal with
              | |- context [if ?b then _ else _] => destruct b
              end; simpl; try discriminate; apply Hsample.
Qed.

Lemma get_action_all_in_only_push_fold_witness :
  rq_state (short_stack_flop 0.9) <> PRE_FLOP /\
  exists draws,
    identify_draws (rq_hole (short_stack_flop 0.9)) (rq_community (short_stack_flop 0.9))
      = Some draws /\
    let de := calculate_total_equity draws in
    let g := get_strategy_by_spr
               (calculate_spr (effective_stack_of (short_stack_flop 0.9))
                  (rq_total_pot (short_stack_flop 0.9)))
               (rq_hand_strength (short_stack_flop 0.9)) de in
    push_fold g = true /\
    commit_threshold g <= rq_win_probability (short_stack_flop 0.9) + de * 0.5 /\
    snd (ALL_IN, 100%Z) = rq_chips (short_stack_flop 0.9).
Proof.
  apply (proj2 (proj2 get_action_all_in_only_push_fold) init_shark (short_stack_flop 0.9) 0
           (ALL_IN, 100%Z)); vm_compute; reflexivity.
Defined.

(** ** Sticky activation *)

Definition sum_hands (od : list (string * OppData)) : nat :=
  list_sum (map (fun kv => hands_observed (snd kv)) od).

Lemma total_hands_sum (od : list (string * OppData)) : total_hands od = sum_hands od.
Proof.
  unfold total_hands, sum_hands.
  assert (H : forall acc, fold_left (fun acc kv => (acc + hands_observed (snd kv))%nat) od acc
                          = (acc + list_sum (map (fun kv => hands_observed (snd kv)) od))%nat).
  { induction od as [|kv od IH]; intros acc; simpl; [lia|]. rewrite IH. lia. }
  rewrite H. reflexivity.
Qed.

Lemma sum_hands_dict_set_same (k : string) (v1 v2 : OppData) (od : list (string * OppData)) :
  hands_observed v1 = hands_observed v2 ->
  sum_hands (dict_set k v1 od) = sum_hands (dict_set k v2 od).
Proof.
  intros H. unfold sum_hands. induction od as [|[k' v'] od IH]; simpl.
  - rewrite H. reflexivity.
  - destruct (String.eqb k k'); simpl; [rewrite H | rewrite IH]; reflexivity.
Qed.

Lemma dict_set_dict_set {V : Type} (k : string) (v1 v2 : V) (od : list (string * V)) :
  dict_set k v2 (dict_set k v1 od) = dict_set k v2 od.
Proof.
  induction od as [|[k' v'] od IH]; simpl.
  - rewrite String.eqb_refl. reflexivity.
  - destruct (String.eqb k k') eqn:E; simpl.
    + rewrite String.eqb_refl. reflexivity.
    + rewrite E, IH. reflexivity.
Qed.

Lemma calculate_tendencies_hands (d : OppData) :
  hands_observed (calculate_tendencies d) = hands_observed d.
Proof. unfold calculate_tendencies. destruct (_ <? 3)%nat; reflexivity. Qed.

(** The invariant behind activation: reaching the threshold means active. *)
Definition activation_inv (s : Shark) : Prop :=
  (adaptation_start base_config <= total_hands (opponent_data s))%nat ->
  adaptation_active s = true.

Lemma observe_keeps_active (s : Shark) (o : Obs) :
  adaptation_active s = true -> adaptation_active (observe s o) = true.
Proof.
  intros H. unfold observe, update_after_action.
  destruct (dict_get _ _) as [d|]; [|exact H]. rewrite H. simpl.
  destruct (_ || _); [destruct true|]; reflexivity.
Qed.

Lemma observe_activation_inv (s : Shark) (o : Obs) :
  activation_inv s -> activation_inv (observe s o).
Proof.
  unfold activation_inv. intros Hinv. unfold observe, update_after_action.
  destruct (dict_get _ _) as [d|]; [|exact Hinv].
  set (data := record_action (o_action o) (o_bluff o) (o_cbet o) d).
  set (od := dict_set (o_name o) data (opponent_data s)).
  set (active := if adaptation_active s then true
                 else (adaptation_start base_config <=? total_hands od)%nat).
  assert (Ha : (adaptation_start base_config <= total_hands od)%nat -> active = true).
  { intros Hle. unfold active. destruct (adaptation_active s); [reflexivity|].
    apply Nat.leb_le, Hle. }
  assert (Hod' : total_hands (dict_set (o_name o) (calculate_tendencies data) od)
                 = total_hands od).
  { unfold od. rewrite dict_set_dict_set, !total_hands_sum.
    apply sum_hands_dict_set_same, calculate_tendencies_hands. }
  destruct (_ || active); [destruct active|]; simpl; try rewrite Hod'; auto.
Qed.

Lemma run_activation_inv (s : Shark) (os : list Obs) :
  activation_inv s -> activation_inv (run s os).
Proof.
  unfold run. revert s. induction os as [|o os IH]; intros s H; simpl; [exact H|].
  apply IH, observe_activation_inv, H.
Qed.

Lemma run_keeps_active (s : Shark) (os : list Obs) :
  adaptation_active s = true -> adaptation_active (run s os) = true.
Proof.
  unfold run. revert s. induction os as [|o os IH]; intros s H; simpl; [exact H|].
  apply IH, observe_keeps_active, H.
Qed.

Lemma initialize_opponents_hands (players : list Player) (s : Shark) :
  total_hands (opponent_data (initialize_opponents players s)) = 0%nat.
Proof.
  rewrite total_hands_sum. unfold initialize_opponents, sum_hands. simpl.
  assert (H : forall od, Forall (fun kv => hands_observed (snd kv) = 0%nat) od ->
    Forall (fun kv => hands_observed (snd kv) = 0%nat)
      (fold_left (fun od p => if negb (is_ai p) || negb (String.eqb (ai_style p) "SHARK")
                              then dict_set (pname p) fresh_opp od else od) players od)).
  { induction players as [|p ps IH]; intros od Hod; simpl; [exact Hod|].
    apply IH. destruct (_ || _); [|exact Hod].
    clear IH. induction Hod as [|[k v] od Hv Hod IHod]; simpl.
    - constructor; [reflexivity | constructor].
    - destruct (String.eqb (pname p) k); constructor; auto. }
  specialize (H [] (Forall_nil _)).
  induction H as [|kv od Hkv _ IH]; simpl; [reflexivity|]. rewrite Hkv, IH. reflexivity.
Qed.

Lemma get_opponent_summary_active (s : Shark) :
  adaptation_active s = true -> get_opponent_summary s <> observing_text.
Proof.
  intros H. unfold get_opponent_summary. rewrite H. simpl.
  destruct (map _ _) as [|x xs]; intros E.
  - discriminate E.
  - apply (f_equal (fun t => String.eqb t observing_text)) in E.
    rewrite String.eqb_refl in E. vm_compute in E. discriminate E.
Qed.

(** C6: after [initialize_opponents], once the hands observed across the
    tracked opponents reach 20 (or activation is on), activation stays on
    through every later sequence of observed actions and
    [get_opponent_summary] no longer reports the observing text. *)
Theorem adaptation_activation_sticky (players : list Player) (s : Shark) (obs1 obs2 : list Obs) :
  let s1 := run (initialize_opponents players s) obs1 in
  (20 <= total_hands (opponent_data s1))%nat \/ adaptation_active s1 = true ->
  let s2 := run s1 obs2 in
  adaptation_active s2 = true /\ get_opponent_summary s2 <> observing_text.
Proof.
  intros s1 H s2.
  assert (Hinv : activation_inv s1).
  { apply run_activation_inv. unfold activation_inv.
    rewrite initialize_opponents_hands. simpl. intros Hle. inversion Hle. }
  assert (Ha1 : adaptation_active s1 = true) by (destruct H as [H|H]; [apply Hinv, H | exact H]).
  assert (Ha2 : adaptation_active s2 = true) by (apply run_keeps_active, Ha1).
  split; [exact Ha2 | apply get_opponent_summary_active, Ha2].
Qed.

Lemma adaptation_activation_sticky_witness :
  let s1 := run (initialize_opponents [mkPlayer "A" false "LAG"] init_shark)
                (repeat (mkObs "A" "call" "flop" false false) 20) in
  let s2 := run s1 [mkObs "A" "fold" "turn" false false] in
  adaptation_active s2 = true /\ get_opponent_summary s2 <> observing_text.
Proof.
  apply adaptation_activation_sticky. left. apply Nat.leb_le. vm_compute. reflexivity.
Defined.

(** ** Current configuration after adaptation *)

Definition one_human : Shark := initialize_opponents [mkPlayer "A" false "LAG"] init_shark.

Definition call_a : Obs := mkObs "A" "call" "flop" false false.
Definition raise_a : Obs := mkObs "A" "raise" "flop" false false.

(** C1: two sessions over one opponent that end with the same records
    (21 hands, 20 calls, 1 raise, no bluff, so the same tendencies: fold 0,
    bluff 0, calling 20/21) and the same baseline end with different
    current configurations.  Calling 20 times first activates adaptation
    while the bluff tendency is still its initial 0.5, so the tighten-up
    rule sets [vpip_range] to (15, 20); the final recomputation fires only
    the calling-station rule, which leaves [vpip_range] untouched, and no
    reset to [base_config] happens because a rule fired.  Raising first
    never fires the tighten-up rule and leaves the baseline (12, 18). *)
Lemma update_strategy_history_dependent :
  opponent_data (run one_human (repeat call_a 20 ++ [raise_a]))
  = opponent_data (run one_human (raise_a :: repeat call_a 20)) /\
  vpip_range (current_config (run one_human (repeat call_a 20 ++ [raise_a]))) = (15, 20)%Z /\
  vpip_range (current_config (run one_human (raise_a :: repeat call_a 20))) = (12, 18)%Z /\
  vpip_range base_config = (12, 18)%Z.
Proof. vm_compute. repeat split. Qed.

(** * Further properties of the opponent model *)

Lemma dict_get_forall {V : Type} (P : V -> Prop) (k : string) (d : list (string * V)) (v : V) :
  Forall (fun kv => P (snd kv)) d -> dict_get k d = Some v -> P v.
Proof.
  induction 1 as [|[k' v'] d Hv Hd IH]; simpl; [discriminate|].
  destruct (String.eqb k k'); [intros H; injection H as <-; exact Hv | exact IH].
Qed.

Lemma dict_set_forall {V : Type} (P : V -> Prop) (k : string) (v : V) (d : list (string * V)) :
  Forall (fun kv => P (snd kv)) d -> P v -> Forall (fun kv => P (snd kv)) (dict_set k v d).
Proof.
  intros Hd Hv. induction Hd as [|[k' v'] d Hv' Hd IH]; simpl.
  - constructor; [exact Hv | constructor].
  - destruct (String.eqb k k'); constructor; assumption.
Qed.

Section OpponentInvariant.
(** A property of one opponent record, kept by every step that writes
    records: creation, counting an action, recomputing tendencies. *)
Variable P : OppData -> Prop.
Hypothesis P_fresh : P fresh_opp.
Hypothesis P_record : forall action is_bluff facing_cbet d,
    P d -> P (record_action action is_bluff facing_cbet d).
Hypothesis P_tendencies : forall d, P d -> P (calculate_tendencies d).

Lemma initialize_opponents_forall (players : list Player) (s : Shark) :
    Forall (fun kv => P (snd kv)) (opponent_data (initialize_opponents players s)).
  Proof.
    unfold initialize_opponents. simpl.
    generalize (Forall_nil (fun kv : string * OppData => P (snd kv))).
    generalize (@nil (string * OppData)).
    induction players as [|p ps IH]; intros od Hod; simpl; [exact Hod|].
    apply IH. destruct (_ || _); [apply dict_set_forall; assumption | exact Hod].
  Qed.

Lemma observe_forall (s : Shark) (o : Obs) :
    Forall (fun kv => P (snd kv)) (opponent_data s) ->
    Forall (fun kv => P (snd kv)) (opponent_data (observe s o)).
  Proof.
    intros Hs. unfold observe, update_after_action.
    destruct (dict_get (o_name o) (opponent_data s)) as [d|] eqn:Eg; [|exact Hs].
    pose proof (dict_get_forall P _ _ _ Hs Eg) as Hd.
    assert (Hod : Forall (fun kv => P (snd kv))
                    (dict_set (o_name o) (record_action (o_action o) (o_bluff o) (o_cbet o) d)
                       (opponent_data s)))
      by (apply dict_set_forall; [exact Hs | apply P_record, Hd]).
    cbv zeta. repeat match goal with |- context [if ?b then _ else _] => destruct b end; simpl;
      try (apply dict_set_forall; [exact Hod | apply P_tendencies, P_record, Hd]); exact Hod.
  Qed.

Lemma run_forall (players : list Player) (s0 : Shark) (os : list Obs) :
    Forall (fun kv => P (snd kv)) (opponent_data (run (initialize_opponents players s0) os)).
  Proof.
    unfold run. generalize (initialize_opponents_forall players s0).
    generalize (initialize_opponents players s0).
    induction os as [|o os IH]; intros s Hs; simpl; [exact Hs|].
    apply IH, observe_forall, Hs.
  Qed.
End OpponentInvariant.

Definition in01 (x : Q) : Prop := 0 <= x /\ x <= 1.

Lemma py_min_1_in01 (y : Q) : 0 <= y -> in01 (py_min 1.0 y).
Proof.
  intros Hy. unfold py_min, in01. destruct (Qlt_le_dec y 1.0) as [H|H].
  - split; [exact Hy|]. unfold Qlt, Qle in *; simpl in *; lia.
  - split; discriminate.
Qed.

Lemma clamp01_in01 (x : Q) : in01 (clamp01 x).
Proof.
  unfold clamp01. apply py_min_1_in01. unfold py_max.
  destruct (Qlt_le_dec 0.0 x) as [H|H]; unfold Qlt, Qle in *; simpl in *; lia.
Qed.

Lemma nat_ratio_nonneg (a b : nat) (k : Q) : 0 <= k ->
  0 <= inject_Z (Z.of_nat a) / inject_Z (Z.of_nat b) * k.
Proof.
  intros Hk. apply Qmult_le_0_compat; [|exact Hk].
  unfold Qdiv. apply Qmult_le_0_compat.
  - unfold Qle; simpl; lia.
  - apply Qinv_le_0_compat. unfold Qle; simpl; lia.
Qed.

Definition tendencies_in01 (d : OppData) : Prop :=
  in01 (fold_tendency d) /\ in01 (bluff_tendency d) /\ in01 (calling_tendency d).

(** After [initialize_opponents] and any sequence of observed actions, the
    three tendency scores of every tracked opponent lie in [0, 1]. *)
Theorem tendencies_stay_in_unit_interval (players : list Player) (s0 : Shark) (os : list Obs) :
  Forall (fun kv => tendencies_in01 (snd kv))
    (opponent_data (run (initialize_opponents players s0) os)).
Proof.
  apply run_forall.
  - repeat split; discriminate.
  - intros a b c d Hd. unfold record_action.
    repeat match goal with |- context [if ?b then _ else _] => destruct b end; exact Hd.
  - intros d (Hf & Hb & Hc). unfold calculate_tendencies.
    destruct (hands_observed d <? 3)%nat; [repeat split; apply Hf || apply Hb || apply Hc|].
    unfold tendencies_in01; simpl. split; [apply clamp01_in01|]. split.
    + destruct (0 <? raises d)%nat; [apply py_min_1_in01, nat_ratio_nonneg; discriminate | exact Hb].
    + destruct (folds d <? hands_observed d)%nat; [apply clamp01_in01 | exact Hc].
Qed.

Definition counters_consistent (d : OppData) : Prop :=
  (folds d + calls d + raises d <= hands_observed d)%nat /\
  (bluffs_detected d <= raises d)%nat /\
  (fold_to_cbet d <= folds d)%nat /\
  (fold_to_cbet d <= cbet_opportunities d)%nat.

(** After [initialize_opponents] and any sequence of observed actions, for
    every tracked opponent: folds + calls + raises <= hands observed,
    detected bluffs <= raises, and folds to a continuation bet are at most
    both the folds and the continuation-bet opportunities. *)
Theorem opponent_counters_consistent (players : list Player) (s0 : Shark) (os : list Obs) :
  Forall (fun kv => counters_consistent (snd kv))
    (opponent_data (run (initialize_opponents players s0) os)).
Proof.
  apply run_forall.
  - unfold counters_consistent; simpl; lia.
  - intros a b c d (H1 & H2 & H3 & H4). unfold record_action, counters_consistent.
    destruct (String.eqb a "fold"); [|destruct (String.eqb a "call");
      [|destruct (String.eqb a "raise" || String.eqb a "bet")]];
    destruct b, c; simpl; lia.
  - intros d Hd. unfold calculate_tendencies. destruct (_ <? 3)%nat; exact Hd.
Qed.

Lemma sum_hands_dict_set_get (k : string) (v d : OppData) (od : list (string * OppData)) :
  dict_get k od = Some d ->
  (sum_hands (dict_set k v od) + hands_observed d = sum_hands od + hands_observed v)%nat.
Proof.
  unfold sum_hands. induction od as [|[k' v'] od IH]; simpl; [discriminate|].
  destruct (String.eqb k k'); simpl.
  - intros H; injection H as <-. lia.
  - intros H. specialize (IH H). lia.
Qed.

(** After [initialize_opponents] and any sequence of observed actions, the
    shark's own hand counter [hands_observed] equals the sum of the
    [hands_observed] counters of the tracked opponents. *)
Theorem shark_hands_equals_opponent_total (players : list Player) (s0 : Shark) (os : list Obs) :
  let s := run (initialize_opponents players s0) os in
  shark_hands_observed s = total_hands (opponent_data s).
Proof.
  cbv zeta. unfold run.
  assert (H0 : shark_hands_observed (initialize_opponents players s0)
               = total_hands (opponent_data (initialize_opponents players s0)))
    by (rewrite initialize_opponents_hands; reflexivity).
  revert H0. generalize (initialize_opponents players s0).
  induction os as [|o os IH]; intros s Hs; simpl; [exact Hs|]. apply IH.
  unfold observe, update_after_action.
  destruct (dict_get (o_name o) (opponent_data s)) as [d|] eqn:Eg; [|exact Hs].
  set (data := record_action (o_action o) (o_bluff o) (o_cbet o) d).
  assert (Hdata : hands_observed data = S (hands_observed d)).
  { unfold data, record_action.
    repeat match goal with |- context [if ?b then _ else _] => destruct b end; reflexivity. }
  assert (Hod : total_hands (dict_set (o_name o) data (opponent_data s))
                = S (shark_hands_observed s)).
  { rewrite Hs, !total_hands_sum.
    pose proof (sum_hands_dict_set_get (o_name o) data d _ Eg). lia. }
  assert (Hod' : total_hands (dict_set (o_name o) (calculate_tendencies data)
                   (dict_set (o_name o) data (opponent_data s))) = S (shark_hands_observed s)).
  { rewrite dict_set_dict_set, <- Hod, !total_hands_sum.
    apply sum_hands_dict_set_same, calculate_tendencies_hands. }
  cbv zeta. repeat match goal with |- context [if ?b then _ else _] => destruct b end;
    simpl; congruence.
Qed.

Lemma dict_mem_dict_set {V : Type} (n k : string) (v : V) (d : list (string * V)) :
  dict_mem n (dict_set k v d) = String.eqb n k || dict_mem n d.
Proof.
  unfold dict_mem. induction d as [|[k' v'] d IH]; simpl.
  - destruct (String.eqb n k); reflexivity.
  - destruct (String.eqb k k') eqn:Ekk; simpl.
    + apply String.eqb_eq in Ekk. subst k'. destruct (String.eqb n k); reflexivity.
    + destruct (String.eqb n k') eqn:Enk; [|exact IH].
      destruct (String.eqb n k); reflexivity.
Qed.

Lemma dict_mem_dict_set_existing {V : Type} (n k : string) (v w : V) (d : list (string * V)) :
  dict_get k d = Some w -> dict_mem n (dict_set k v d) = dict_mem n d.
Proof.
  intros Hk. rewrite dict_mem_dict_set.
  destruct (String.eqb n k) eqn:E; [|reflexivity].
  apply String.eqb_eq in E. subst n. unfold dict_mem. rewrite Hk. reflexivity.
Qed.

(** Whether [initialize_opponents] tracks a player. *)
Definition tracked (p : Player) : bool :=
  negb (is_ai p) || negb (String.eqb (ai_style p) "SHARK").

(** After [initialize_opponents] and any sequence of observed actions, a
    name has an entry in [opponent_data] exactly when some player passed to
    [initialize_opponents] has that name and is human or an AI whose style
    is not SHARK: observing actions never adds or removes opponents. *)
Theorem opponent_data_keys (players : list Player) (s0 : Shark) (os : list Obs) (n : string) :
  dict_mem n (opponent_data (run (initialize_opponents players s0) os))
  = existsb (fun p => String.eqb n (pname p) && tracked p) players.
Proof.
  unfold run.
  assert (H0 : dict_mem n (opponent_data (initialize_opponents players s0))
               = existsb (fun p => String.eqb n (pname p) && tracked p) players).
  { unfold initialize_opponents. simpl.
    change (existsb (fun p => String.eqb n (pname p) && tracked p) players)
      with (dict_mem n (@nil (string * OppData))
            || existsb (fun p => String.eqb n (pname p) && tracked p) players).
    generalize (@nil (string * OppData)).
    induction players as [|p ps IH]; intros od; simpl; [symmetry; apply orb_false_r|].
    rewrite IH. unfold tracked.
    destruct (negb (is_ai p) || negb (String.eqb (ai_style p) "SHARK")); simpl.
    - rewrite dict_mem_dict_set, andb_true_r. destruct (String.eqb n (pname p)), (dict_mem n od); reflexivity.
    - rewrite andb_false_r. reflexivity. }
  rewrite <- H0. generalize (initialize_opponents players s0).
  induction os as [|o os IH]; intros s; simpl; [reflexivity|]. rewrite IH.
  unfold observe, update_after_action.
  destruct (dict_get (o_name o) (opponent_data s)) as [d|] eqn:Eg; [|reflexivity].
  assert (Hg : dict_get (o_name o)
                 (dict_set (o_name o) (record_action (o_action o) (o_bluff o) (o_cbet o) d)
                    (opponent_data s)) = Some (record_action (o_action o) (o_bluff o) (o_cbet o) d)).
  { clear IH. induction (opponent_data s) as [|[k v] l IHl]; simpl in *; [discriminate|].
    destruct (String.eqb (o_name o) k) eqn:E; simpl; rewrite ?String.eqb_refl, ?E; auto. }
  cbv zeta. repeat match goal with |- context [if ?b then _ else _] => destruct b end;
    simpl; rewrite ?(dict_mem_dict_set_existing _ _ _ _ _ Hg); apply (dict_mem_dict_set_existing _ _ _ _ _ Eg).
Qed.

(** ** Further properties of the draw detector *)

(** The insertion step of [sorted_desc]. *)
Definition ins_desc (x : Z) : list Z -> list Z :=
  fix ins (l : list Z) : list Z :=
    match l with
    | [] => [x]
    | y :: l' => if (y <? x)%Z then x :: l else y :: ins l'
    end.

Lemma sorted_desc_ins (xs : list Z) :
  sorted_desc xs = fold_left (fun acc x => ins_desc x acc) xs [].
Proof. reflexivity. Qed.

Lemma sorted_desc_length (xs : list Z) : length (sorted_desc xs) = length xs.
Proof.
  rewrite sorted_desc_ins.
  assert (Hins : forall x l, length (ins_desc x l) = S (length l)).
  { intros x l. induction l as [|y l IHl]; simpl; [reflexivity|].
    destruct (y <? x)%Z; simpl; [reflexivity | rewrite IHl; reflexivity]. }
  change (length xs) with (length (@nil Z) + length xs)%nat.
  generalize (@nil Z). induction xs as [|x xs IH]; intros acc; simpl; [lia|].
  rewrite IH, Hins. lia.
Qed.

Lemma sorted_desc_nil (xs : list Z) : sorted_desc xs = [] <-> xs = [].
Proof.
  split; [|intros ->; reflexivity].
  intros H. apply (f_equal (@length Z)) in H. rewrite sorted_desc_length in H.
  destruct xs; [reflexivity | discriminate].
Qed.

(** [identify_draws] raises its [IndexError] exactly when there are
    community cards and no hole card. *)
Lemma identify_draws_none_iff (hole comm : list Card) :
  identify_draws hole comm = None <-> comm <> [] /\ hole = [].
Proof.
  unfold identify_draws. destruct comm as [|cc ccs].
  - split; [discriminate | intros [H _]; contradiction].
  - cbv zeta. destruct (sorted_desc (map value hole)) as [|h0 hs] eqn:E.
    + apply (proj1 (sorted_desc_nil _)) in E. destruct hole; [|discriminate E].
      split; intros; [split; [discriminate | reflexivity] | reflexivity].
    + split; [discriminate|]. intros [_ ->]. discriminate E.
Qed.

(** [calculate_direct_odds] raises its [ZeroDivisionError] exactly when
    there is something to call and [total_pot = -amount_to_call]. *)
Lemma calculate_direct_odds_none_iff (c pot : Z) :
  calculate_direct_odds c pot = None <-> (0 < c)%Z /\ (pot + c = 0)%Z.
Proof.
  unfold calculate_direct_odds, py_div.
  destruct (c <=? 0)%Z eqn:Ec; [split; [discriminate | lia]|].
  apply Z.leb_gt in Ec. destruct (pot + c =? 0)%Z eqn:E0.
  - apply Z.eqb_eq in E0. split; [intros _; lia | reflexivity].
  - apply Z.eqb_neq in E0. split; [discriminate | lia].
Qed.

(** [calculate_implied_odds] raises on the same inputs. *)
Lemma calculate_implied_odds_none_iff (c pot : Z) (stack : Q) (street : string) (de : Q) :
  calculate_implied_odds c pot stack street de = None <-> (0 < c)%Z /\ (pot + c = 0)%Z.
Proof.
  unfold calculate_implied_odds, py_div.
  destruct (c <=? 0)%Z eqn:Ec; [split; [discriminate | lia]|].
  apply Z.leb_gt in Ec. cbv zeta. destruct (pot + c =? 0)%Z eqn:E0.
  - apply Z.eqb_eq in E0. split; [intros _; lia | reflexivity].
  - apply Z.eqb_neq in E0. split; [discriminate | lia].
Qed.

(** [get_action] fails exactly when there are community cards and the
    player holds no card (the [IndexError] of [identify_draws]), or when
    there is something to call and [total_pot = -amount_to_call] (the
    [ZeroDivisionError] of [calculate_direct_odds]); both calls are made on
    every street before branching, so otherwise it returns an action,
    pre-flop included. *)
Theorem get_action_fails_iff (s : Shark) (rq : Request) (u : Q) :
  get_action s rq u = None <->
  (rq_community rq <> [] /\ rq_hole rq = []) \/
  ((0 < rq_amount_to_call rq)%Z /\ (rq_total_pot rq + rq_amount_to_call rq = 0)%Z).
Proof.
  rewrite <- identify_draws_none_iff, <- calculate_direct_odds_none_iff.
  unfold get_action. cbv zeta.
  destruct (identify_draws (rq_hole rq) (rq_community rq)); [|tauto].
  destruct (calculate_direct_odds _ _) eqn:Ed; [|tauto].
  destruct (calculate_implied_odds _ _ _ _ _) eqn:Ei.
  - split; [|intros [H|H]; discriminate H]. destruct (rq_state rq); discriminate.
  - apply calculate_implied_odds_none_iff in Ei.
    apply (proj2 (calculate_direct_odds_none_iff _ _)) in Ei. congruence.
Qed.

Lemma dict_get_dict_set_eq {V : Type} (k : string) (v : V) (d : list (string * V)) :
  dict_get k (dict_set k v d) = Some v.
Proof.
  induction d as [|[k' v'] d IH]; simpl.
  - rewrite String.eqb_refl. reflexivity.
  - destruct (String.eqb k k') eqn:E; simpl; rewrite ?String.eqb_refl, ?E; auto.
Qed.

Lemma dict_get_dict_set_neq {V : Type} (n k : string) (v : V) (d : list (string * V)) :
  String.eqb n k = false -> dict_get n (dict_set k v d) = dict_get n d.
Proof.
  intros Hnk. induction d as [|[k' v'] d IH]; simpl.
  - rewrite Hnk. reflexivity.
  - destruct (String.eqb k k') eqn:E; simpl.
    + apply String.eqb_eq in E. subst k'. rewrite Hnk. reflexivity.
    + destruct (String.eqb n k'); [reflexivity | exact IH].
Qed.

Lemma fold_left_absent {A : Type} (n : string) (f : Draws -> A -> Draws) (l : list A) (d : Draws) :
  (forall d' a, dict_get n d' = None -> dict_get n (f d' a) = None) ->
  dict_get n d = None -> dict_get n (fold_left f l d) = None.
Proof.
  intros Hf. revert d. induction l as [|a l IH]; intros d Hd; simpl; [exact Hd|].
  apply IH, Hf, Hd.
Qed.

(** A key is absent from a map built by [dict_set]s of other keys. *)
Ltac absent_step :=
  match goal with
  | H : (?x && ?y)%bool = true, H2 : ?y = false |- _ =>
      rewrite H2, andb_false_r in H; discriminate H
  | H : (?x && false)%bool = true |- _ => rewrite andb_false_r in H; discriminate H
  | |- dict_get _ [] = None => reflexivity
  | |- dict_get _ (dict_set _ _ _) = None => rewrite dict_get_dict_set_neq by reflexivity
  | |- dict_get _ (fold_left _ _ _) = None =>
      apply fold_left_absent; [intros ? ? ?; cbv beta|]
  | |- dict_get _ (if ?b then _ else _) = None => let E := fresh "E" in destruct b eqn:E
  | |- dict_get _ (let _ := _ in _) = None => cbv zeta
  | H : dict_get ?n ?d = None |- dict_get ?n ?d = None => exact H
  end.

Lemma combo_step (d4 d : Draws) (c : Draw) :
  dict_get "combo_draw" d4 = None ->
  (if dict_mem "flush_draw" d4 && dict_mem "oesd" d4
   then dict_set "combo_draw" (mkDraw 15 0.54) d4
   else if dict_mem "flush_draw" d4 && dict_mem "gutshot" d4
   then dict_set "combo_draw" (mkDraw 12 0.45) d4
   else d4) = d ->
  dict_get "combo_draw" d = Some c ->
  dict_mem "flush_draw" d = true /\
  ((dict_mem "oesd" d = true /\ c = mkDraw 15 0.54) \/
   (dict_mem "oesd" d = false /\ dict_mem "gutshot" d = true /\ c = mkDraw 12 0.45)).
Proof.
  intros Habs Hd Hc. subst d.
  destruct (dict_mem "flush_draw" d4) eqn:Ef; simpl in Hc |- *;
    [|rewrite Habs in Hc; discriminate Hc].
  destruct (dict_mem "oesd" d4) eqn:Eo; simpl in Hc |- *.
  - rewrite dict_get_dict_set_eq in Hc. injection Hc as <-.
    rewrite !dict_mem_dict_set. simpl. rewrite Ef, Eo. auto.
  - destruct (dict_mem "gutshot" d4) eqn:Eg; simpl in Hc |- *;
      [|rewrite Habs in Hc; discriminate Hc].
    rewrite dict_get_dict_set_eq in Hc. injection Hc as <-.
    rewrite !dict_mem_dict_set. simpl. rewrite Ef, Eo, Eg. auto.
Qed.

(** In the map returned by [identify_draws], a [combo_draw] entry comes
    only with a [flush_draw] entry: it is the 15-out, 0.54 combo when an
    [oesd] entry is also there, and otherwise the 12-out, 0.45 combo with a
    [gutshot] entry. A [backdoor_flush] entry appears only when exactly
    three community cards are given. *)
Theorem identify_draws_entries (hole comm : list Card) (d : Draws) :
  identify_draws hole comm = Some d ->
  (forall c, dict_get "combo_draw" d = Some c ->
     dict_mem "flush_draw" d = true /\
     ((dict_mem "oesd" d = true /\ c = mkDraw 15 0.54) \/
      (dict_mem "oesd" d = false /\ dict_mem "gutshot" d = true /\ c = mkDraw 12 0.45))) /\
  (dict_mem "backdoor_flush" d = true -> length comm = 3%nat).
Proof.
  unfold identify_draws. destruct comm as [|cc ccs].
  - intros H; injection H as <-. split; [discriminate | discriminate].
  - destruct (sorted_desc (map value hole)) as [|h0 hs]; [discriminate|].
    intros H. assert (Hsome : forall x y : Draws, Some x = Some y -> x = y) by congruence.
    apply Hsome in H. clear Hsome. split.
    + intros c Hc. cbv zeta in H. refine (combo_step _ _ _ _ H Hc).
      repeat absent_step.
    + destruct ((length (cc :: ccs) =? 3)%nat) eqn:Hlen; [intros _; apply Nat.eqb_eq, Hlen|].
      intros Hm. exfalso. subst d. unfold dict_mem in Hm.
      match type of Hm with (match ?g with Some _ => _ | None => _ end) = true =>
        assert (Habs : g = None) end.
      { cbv zeta. repeat absent_step. }
      rewrite Habs in Hm. discriminate Hm.
Qed.

Definition draws_below (b : Q) (d : Draws) : Prop := Forall (fun kd => equity (snd kd) <= b) d.

Lemma dict_set_below (b : Q) (k : string) (v : Draw) (d : Draws) :
  draws_below b d -> equity v <= b -> draws_below b (dict_set k v d).
Proof.
  unfold draws_below. intros Hd Hv. induction Hd as [|[k' v'] d' Hh Ht IH]; simpl.
  - constructor; [exact Hv | constructor].
  - destruct (String.eqb k k'); constructor; auto.
Qed.

Lemma fold_left_below {A : Type} (b : Q) (f : Draws -> A -> Draws) (l : list A) (d : Draws) :
  (forall d' a, draws_below b d' -> draws_below b (f d' a)) ->
  draws_below b d -> draws_below b (fold_left f l d).
Proof.
  intros Hf. revert d. induction l as [|a l IH]; intros d Hd; simpl; [exact Hd|].
  apply IH, Hf, Hd.
Qed.

Lemma filter_length_at_most {A : Type} (f : A -> bool) (l : list A) :
  (length (filter f l) <= length l)%nat.
Proof.
  induction l as [|a l IH]; simpl; [lia|]. destruct (f a); simpl; lia.
Qed.

(** With at most two hole cards, every finding of [identify_draws] has an
    equity of at most 0.54 (the 15-out combo draw), and so has the draw
    equity [calculate_total_equity] derives from it. *)
Theorem identify_draws_equity_at_most_054 (hole comm : list Card) (d : Draws) :
  identify_draws hole comm = Some d -> (length hole <= 2)%nat ->
  draws_below 0.54 d /\ calculate_total_equity d <= 0.54.
Proof.
  intros H Hlen.
  assert (Hb : draws_below 0.54 d).
  { revert H. unfold identify_draws. destruct comm as [|cc ccs].
    - intros H; injection H as <-; constructor.
    - cbv zeta. destruct (sorted_desc (map value hole)) as [|h0 hs] eqn:E; [discriminate|].
      assert (Hhs : (length (h0 :: hs) <= 2)%nat).
      { rewrite <- E, sorted_desc_length, length_map. exact Hlen. }
      intros H. assert (Hsome : forall x y : Draws, Some x = Some y -> x = y) by congruence.
      apply Hsome in H. clear Hsome. subst d.
      repeat match goal with
      | |- draws_below _ [] => constructor
      | |- draws_below _ (dict_set _ _ _) => apply dict_set_below
      | |- draws_below _ (fold_left _ _ _) =>
          apply fold_left_below; [intros ? ? ?; cbv beta|]
      | |- draws_below _ (if ?b then _ else _) => destruct b
      | |- draws_below _ (let _ := _ in _) => cbv zeta
      | H : draws_below ?b ?d |- draws_below ?b ?d => exact H
      | |- equity (mkDraw _ (inject_Z (Z.of_nat (length (filter ?f ?l))) * _)) <= _ =>
          let m := fresh "m" in
          pose proof (filter_length_at_most f l);
          remember (length (filter f l)) as m;
          unfold Qle, Qmult; simpl; lia
      | |- equity (mkDraw _ _) <= _ => simpl; discriminate
      end. }
  split; [exact Hb|].
  destruct d as [|[k v] rest]; [discriminate|].
  unfold calculate_total_equity, draws_below in *.
  rewrite Forall_forall in Hb.
  destruct (py_max_list_member (equity v) (map (fun kd => equity (snd kd)) rest)) as [Heq|Hin].
  - rewrite <- Heq. apply (Hb (k, v)). left. reflexivity.
  - apply in_map_iff in Hin as [kd [Hkd Hin]]. rewrite <- Hkd. apply Hb. right. exact Hin.
Qed.

(** ** Further properties of the pot odds *)

Lemma Qdiv_le_pos (s a b : Q) : 0 <= s -> 0 < a -> a <= b -> s / b <= s / a.
Proof.
  intros Hs Ha Hab. assert (Hb : 0 < b) by (apply (Qlt_le_trans _ _ _ Ha Hab)).
  assert (Hsb : 0 <= s / b) by (apply Qle_shift_div_l; [exact Hb | rewrite Qmult_0_l; exact Hs]).
  apply Qle_shift_div_l; [exact Ha|].
  apply Qle_trans with (s / b * b).
  - rewrite (Qmult_comm _ a), (Qmult_comm _ b). apply Qmult_le_compat_r; [exact Hab | exact Hsb].
  - rewrite Qmult_comm, Qmult_div_r; [apply Qle_refl|]. intros H. rewrite H in Hb. discriminate Hb.
Qed.

Lemma Qdiv_in_unit (a b : Q) : 0 < a -> a <= b -> 0 < a / b /\ a / b <= 1.
Proof.
  intros Ha Hab. assert (Hb : 0 < b) by (apply (Qlt_le_trans _ _ _ Ha Hab)). split.
  - apply Qlt_shift_div_l; [exact Hb | rewrite Qmult_0_l; exact Ha].
  - apply Qle_shift_div_r; [exact Hb | rewrite Qmult_1_l; exact Hab].
Qed.

Lemma py_min_le_r (a b : Q) : py_min a b <= b.
Proof.
  unfold py_min. destruct (Qlt_le_dec b a) as [H|H]; [apply Qle_refl | exact H].
Qed.

Lemma py_min_nonneg (a b : Q) : 0 <= a -> 0 <= b -> 0 <= py_min a b.
Proof. unfold py_min. destruct (Qlt_le_dec b a); auto. Qed.

Lemma py_min_mono_l (a a' b : Q) : a <= a' -> py_min a b <= py_min a' b.
Proof.
  intros H. unfold py_min.
  destruct (Qlt_le_dec b a) as [H1|H1], (Qlt_le_dec b a') as [H2|H2].
  - apply Qle_refl.
  - exfalso. apply (Qlt_not_le _ _ (Qlt_le_trans _ _ _ H1 H) H2).
  - exact H1.
  - exact H.
Qed.

Lemma street_multiplier_nonneg (street : string) : 0 <= street_multiplier street.
Proof.
  unfold street_multiplier.
  repeat match goal with |- context [if ?b then _ else _] => destruct b end; discriminate.
Qed.

Lemma potential_future_win_range (stack de : Q) (street : string) :
  0 <= stack -> 0 <= de ->
  0 <= py_min (stack * 0.3 * de * street_multiplier street) (stack * 0.5) /\
  py_min (stack * 0.3 * de * street_multiplier street) (stack * 0.5) <= stack * 0.5.
Proof.
  intros Hs Hd. split; [|apply py_min_le_r].
  apply py_min_nonneg; repeat apply Qmult_le_0_compat; try assumption; try discriminate.
  apply street_multiplier_nonneg.
Qed.

(** The result of [calculate_implied_odds] when there is something to
    call and the direct division does not fail. *)
Lemma calculate_implied_odds_unfold (c pot : Z) (stack : Q) (street : string) (de : Q) :
  (0 < c)%Z -> (pot + c <> 0)%Z ->
  calculate_implied_odds c pot stack street de =
  let pfw := py_min (stack * 0.3 * de * street_multiplier street) (stack * 0.5) in
  let direct := inject_Z c / (inject_Z pot + inject_Z c) in
  let implied := if Qlt_le_dec (inject_Z c) (inject_Z pot + pfw)
                 then inject_Z c / (inject_Z pot + pfw) else direct in
  Some (mkImpliedOdds None (Some direct) (Some implied) (Some pfw)
          (if Qlt_le_dec (implied * 0.9) de then true else false)).
Proof.
  intros Hc H0. unfold calculate_implied_odds, py_div.
  replace (c <=? 0)%Z with false by (symmetry; apply Z.leb_gt; exact Hc).
  replace ((pot + c) =? 0)%Z with false by (symmetry; apply Z.eqb_neq; exact H0).
  rewrite inject_Z_plus. reflexivity.
Qed.

(** [calculate_direct_odds] is 0 when there is nothing to call; with a
    positive call and a non-negative pot it lies in (0, 1]. *)
Theorem calculate_direct_odds_range (c pot : Z) :
  ((c <= 0)%Z -> calculate_direct_odds c pot = Some 0) /\
  ((0 < c)%Z -> (0 <= pot)%Z ->
     exists r, calculate_direct_odds c pot = Some r /\ 0 < r /\ r <= 1).
Proof.
  unfold calculate_direct_odds, py_div. split.
  - intros Hc. replace (c <=? 0)%Z with true by (symmetry; apply Z.leb_le; exact Hc). reflexivity.
  - intros Hc Hp. replace (c <=? 0)%Z with false by (symmetry; apply Z.leb_gt; exact Hc).
    replace ((pot + c) =? 0)%Z with false by (symmetry; apply Z.eqb_neq; lia).
    eexists. split; [reflexivity|].
    apply Qdiv_in_unit; [unfold Qlt; simpl; lia|].
    rewrite <- Zle_Qle. lia.
Qed.

Lemma calculate_direct_odds_range_witness :
  calculate_direct_odds 0 100 = Some 0 /\
  exists r, calculate_direct_odds 20 100 = Some r /\ 0 < r /\ r <= 1.
Proof.
  split; [apply (proj1 (calculate_direct_odds_range 0 100)); lia|].
  apply (proj2 (calculate_direct_odds_range 20 100)); lia.
Defined.

(** With a positive call, a non-negative pot, a non-negative effective
    stack and a non-negative draw equity, [calculate_implied_odds] returns
    a [potential_future_win] between 0 and half the effective stack, and a
    [direct_equity_needed] and an [implied_equity_needed] both in (0, 1]. *)
Theorem calculate_implied_odds_ranges (c pot : Z) (stack : Q) (street : string) (de : Q) :
  (0 < c)%Z -> (0 <= pot)%Z -> 0 <= stack -> 0 <= de ->
  exists R direct implied pfw,
    calculate_implied_odds c pot stack street de = Some R /\
    io_direct_equity_needed R = Some direct /\
    io_implied_equity_needed R = Some implied /\
    io_potential_future_win R = Some pfw /\
    0 <= pfw /\ pfw <= stack * 0.5 /\
    0 < direct /\ direct <= 1 /\ 0 < implied /\ implied <= 1.
Proof.
  intros Hc Hp Hs Hd. rewrite calculate_implied_odds_unfold by lia. cbv zeta.
  set (pfw := py_min _ _).
  assert (Hdir : 0 < inject_Z c / (inject_Z pot + inject_Z c) /\
                 inject_Z c / (inject_Z pot + inject_Z c) <= 1).
  { apply Qdiv_in_unit; [unfold Qlt; simpl; lia|].
    rewrite <- inject_Z_plus. rewrite <- Zle_Qle. lia. }
  destruct (potential_future_win_range stack de street Hs Hd) as [Hp0 Hp1].
  do 4 eexists. split; [reflexivity|]. simpl.
  split; [reflexivity|]. split; [reflexivity|]. split; [reflexivity|].
  split; [exact Hp0|]. split; [exact Hp1|]. split; [apply Hdir|]. split; [apply Hdir|].
  destruct (Qlt_le_dec (inject_Z c) (inject_Z pot + pfw)) as [Ht|Ht]; [|exact Hdir].
  apply Qdiv_in_unit; [unfold Qlt; simpl; lia | apply Qlt_le_weak, Ht].
Qed.

Lemma calculate_implied_odds_ranges_witness :
  (0 < 20)%Z /\ (0 <= 100)%Z /\ 0 <= 500 /\ 0 <= 0.3 /\
  exists R direct implied pfw,
    calculate_implied_odds 20 100 500 "flop" 0.3 = Some R /\
    io_direct_equity_needed R = Some direct /\
    io_implied_equity_needed R = Some implied /\
    io_potential_future_win R = Some pfw /\
    0 <= pfw /\ pfw <= 500 * 0.5 /\
    0 < direct /\ direct <= 1 /\ 0 < implied /\ implied <= 1.
Proof.
  split; [lia|]. split; [lia|]. split; [discriminate|]. split; [discriminate|].
  apply calculate_implied_odds_ranges; [lia | lia | discriminate | discriminate].
Defined.

(** With a positive call and a non-negative pot, the implied equity
    requirement of [calculate_implied_odds] is at most the direct one
    exactly when the expected future winnings cover the call, or when
    the pot plus those winnings does not exceed the call (the fallback to
    the direct requirement): otherwise the "implied" requirement is the
    stricter one. *)
Theorem implied_below_direct_iff (c pot : Z) (stack : Q) (street : string) (de : Q) :
  (0 < c)%Z -> (0 <= pot)%Z ->
  exists R direct implied pfw,
    calculate_implied_odds c pot stack street de = Some R /\
    io_direct_equity_needed R = Some direct /\
    io_implied_equity_needed R = Some implied /\
    io_potential_future_win R = Some pfw /\
    (implied <= direct <-> inject_Z c <= pfw \/ inject_Z pot + pfw <= inject_Z c).
Proof.
  intros Hc Hp. rewrite calculate_implied_odds_unfold by lia. cbv zeta.
  set (pfw := py_min _ _).
  do 4 eexists. split; [reflexivity|]. simpl.
  split; [reflexivity|]. split; [reflexivity|]. split; [reflexivity|].
  assert (HcQ : 0 < inject_Z c) by (unfold Qlt; simpl; lia).
  assert (HD : 0 < inject_Z pot + inject_Z c)
    by (rewrite <- inject_Z_plus; unfold Qlt; simpl; lia).
  destruct (Qlt_le_dec (inject_Z c) (inject_Z pot + pfw)) as [Ht|Ht].
  - assert (HT : 0 < inject_Z pot + pfw) by (apply (Qlt_trans _ _ _ HcQ Ht)). split.
    + intros Hle. left.
      destruct (Qlt_le_dec (inject_Z pot + pfw) (inject_Z pot + inject_Z c)) as [Hlt|Hge].
      * exfalso. apply (Qlt_not_le _ _ (Qdiv_lt_pos _ _ _ HcQ HT Hlt) Hle).
      * apply Qplus_le_r in Hge. exact Hge.
    + intros [Hle|Hle].
      * apply Qdiv_le_pos; [apply Qlt_le_weak, HcQ | exact HD | apply Qplus_le_r, Hle].
      * exfalso. apply (Qlt_not_le _ _ Ht Hle).
  - split; [intros _; right; exact Ht | intros _; apply Qle_refl].
Qed.

Lemma implied_below_direct_iff_witness :
  exists R direct implied pfw,
    calculate_implied_odds 50 10 170 "river" 0.8 = Some R /\
    io_direct_equity_needed R = Some direct /\
    io_implied_equity_needed R = Some implied /\
    io_potential_future_win R = Some pfw /\
    (implied <= direct <-> inject_Z 50 <= pfw \/ inject_Z 10 + pfw <= inject_Z 50).
Proof. apply implied_below_direct_iff; lia. Defined.

(** When the pot exceeds the call and the effective stack is non-negative,
    [should_call] of [calculate_implied_odds] is monotone in the draw
    equity: a draw that is called is still called with more equity. *)
Theorem should_call_monotone (c pot : Z) (stack : Q) (street : string) (de1 de2 : Q) :
  (0 < c)%Z -> (c < pot)%Z -> 0 <= stack -> 0 <= de1 -> de1 <= de2 ->
  forall R1, calculate_implied_odds c pot stack street de1 = Some R1 ->
  io_should_call R1 = true ->
  exists R2, calculate_implied_odds c pot stack street de2 = Some R2 /\
             io_should_call R2 = true.
Proof.
  intros Hc Hcp Hs Hd1 H12 R1 HR1 Hsc.
  rewrite calculate_implied_odds_unfold in HR1 by lia.
  rewrite calculate_implied_odds_unfold by lia. cbv zeta in HR1 |- *.
  assert (Hsome : forall x y : ImpliedOdds, Some x = Some y -> x = y) by congruence.
  apply Hsome in HR1. subst R1. eexists. split; [reflexivity|].
  simpl in Hsc |- *. revert Hsc.
  assert (Hd2 : 0 <= de2) by (apply (Qle_trans _ _ _ Hd1 H12)).
  set (pfw1 := py_min (stack * 0.3 * de1 * street_multiplier street) (stack * 0.5)).
  set (pfw2 := py_min (stack * 0.3 * de2 * street_multiplier street) (stack * 0.5)).
  assert (H0 : 0 <= pfw1) by apply (potential_future_win_range stack de1 street Hs Hd1).
  assert (H12p : pfw1 <= pfw2).
  { apply py_min_mono_l. apply Qmult_le_compat_r; [|apply street_multiplier_nonneg].
    rewrite (Qmult_comm _ de1), (Qmult_comm _ de2).
    apply Qmult_le_compat_r; [exact H12|]. apply Qmult_le_0_compat; [exact Hs | discriminate]. }
  assert (HcQ : 0 < inject_Z c) by (unfold Qlt; simpl; lia).
  assert (Hpot : inject_Z c < inject_Z pot) by (rewrite <- Zlt_Qlt; exact Hcp).
  assert (Ht1 : inject_Z c < inject_Z pot + pfw1).
  { apply (Qlt_le_trans _ _ _ Hpot). rewrite <- (Qplus_0_r (inject_Z pot)) at 1.
    apply Qplus_le_r, H0. }
  assert (Ht2 : inject_Z c < inject_Z pot + pfw2).
  { apply (Qlt_le_trans _ _ _ Ht1). apply Qplus_le_r, H12p. }
  destruct (Qlt_le_dec (inject_Z c) (inject_Z pot + pfw1)) as [_|H]; [|exfalso; apply (Qlt_not_le _ _ Ht1 H)].
  destruct (Qlt_le_dec (inject_Z c) (inject_Z pot + pfw2)) as [_|H]; [|exfalso; apply (Qlt_not_le _ _ Ht2 H)].
  destruct (Qlt_le_dec (inject_Z c / (inject_Z pot + pfw1) * 0.9) de1) as [Hcall|]; [|discriminate].
  intros _. destruct (Qlt_le_dec (inject_Z c / (inject_Z pot + pfw2) * 0.9) de2) as [|Hno]; [reflexivity|].
  exfalso. apply (Qlt_not_le _ _ Hcall).
  apply (Qle_trans _ _ _ H12), (Qle_trans _ _ _ Hno).
  apply Qmult_le_compat_r; [|discriminate].
  apply Qdiv_le_pos; [apply Qlt_le_weak, HcQ | apply (Qlt_trans _ _ _ HcQ Ht1) | apply Qplus_le_r, H12p].
Qed.

Lemma should_call_monotone_witness :
  exists R2, calculate_implied_odds 20 100 500 "flop" 0.4 = Some R2 /\
             io_should_call R2 = true.
Proof.
  destruct (calculate_implied_odds 20 100 500 "flop" 0.3) as [R1|] eqn:E1;
    [|vm_compute in E1; discriminate].
  apply (should_call_monotone 20 100 500 "flop" 0.3 0.4 ltac:(lia) ltac:(lia)
           ltac:(discriminate) ltac:(discriminate) ltac:(discriminate) R1 E1).
  - vm_compute in E1.
    assert (Hsome : forall x y : ImpliedOdds, Some x = Some y -> x = y) by congruence.
    apply Hsome in E1. subst R1. reflexivity.
Defined.

(** ** Further properties of the decisions *)

Lemma valid_weights_available (available_names : list string) (ws : list (string * Q)) (a : string) :
  In a (map fst (valid_weights available_names ws)) -> name_in a available_names = true.
Proof.
  intros Hin. apply in_map_iff in Hin as [kv [<- Hkv]]. unfold valid_weights in Hkv.
  destruct (_ && _); [apply filter_In in Hkv as [Hkv _]|];
    apply filter_In in Hkv as [_ Hb]; apply andb_true_iff in Hb as [Hb _]; exact Hb.
Qed.

(** [_calculate_amount] never returns less than two big blinds: no
    [Action] compares equal to ['fold'], ['check'], ['call'] or
    ['all_in'], so every action is sized by the pot-fraction model. *)
Lemma calculate_amount_at_least_40 (a : Action) (chips amount_to_call current_bet : Z)
    (hand_strength draw_equity : Q) (config : Config) (total_pot : Z) :
  (40 <= calculate_amount a chips amount_to_call current_bet hand_strength draw_equity
           config total_pot)%Z.
Proof.
  unfold calculate_amount. cbn [existsb action_eq_str orb]. cbv zeta.
  destruct (current_bet =? 0)%Z; lia.
Qed.

Lemma postflop_sample_legal_amount (chips : Z) (available_names : list string)
    (amount_to_call current_bet : Z) (hand_strength draw_equity : Q)
    (config : Config) (total_pot : Z) (u : Q) (a : Action) (amt : Z) :
  postflop_sample chips available_names amount_to_call current_bet hand_strength
    draw_equity config total_pot u = (a, amt) ->
  (a = FOLD \/ name_in (action_name a) available_names = true) /\
  a <> ALL_IN /\
  (valid_weights available_names
     (calculate_postflop_weights hand_strength draw_equity config) = [] ->
   a = FOLD /\ amt = 0%Z) /\
  (valid_weights available_names
     (calculate_postflop_weights hand_strength draw_equity config) <> [] ->
   (40 <= amt)%Z).
Proof.
  intros H.
  destruct (valid_weights available_names (calculate_postflop_weights hand_strength draw_equity config))
    eqn:Ev.
  - unfold postflop_sample in H. rewrite Ev in H. injection H as <- <-.
    split; [left; reflexivity|]. split; [discriminate|]. split; [intros _; split; reflexivity|].
    intros Hne. contradiction.
  - assert (Hne : valid_weights available_names
                    (calculate_postflop_weights hand_strength draw_equity config) <> [])
      by (rewrite Ev; discriminate).
    destruct (postflop_sample_key chips available_names amount_to_call current_bet
                hand_strength draw_equity config total_pot u Hne)
      as [k [Hin [Hnames [Hnall Hk]]]].
    rewrite H in Hk. simpl in Hk. subst a.
    assert (Hamt : amt = calculate_amount (action_of_name k) chips amount_to_call current_bet
                           hand_strength draw_equity config total_pot).
    { unfold postflop_sample in H. rewrite Ev in H. cbn beta iota zeta in H.
      injection H as Ha Hamt. rewrite Ha in Hamt. symmetry. exact Hamt. }
    split; [right; rewrite action_of_name_name by exact Hnames;
            apply (valid_weights_available _ _ _ Hin)|].
    split.
    + intros E. apply (f_equal action_name) in E.
      rewrite action_of_name_name in E by exact Hnames. exact (Hnall E).
    + split; [intros E; discriminate E|]. intros _. subst amt.
      apply calculate_amount_at_least_40.
Qed.

Lemma preflop_decision_legal_amount (available_names : list string) (amount_to_call : Z)
    (hand_strength : Q) (position : string) (a : Action) (amt : Z) :
  preflop_decision available_names amount_to_call hand_strength position = (a, amt) ->
  (a = FOLD \/ name_in (action_name a) available_names = true) /\
  ((a = FOLD \/ a = CHECK \/ a = CALL) -> amt = 0%Z) /\
  ((a = BET \/ a = RAISE) -> (40 <= amt)%Z) /\ a <> ALL_IN.
Proof.
  unfold preflop_decision. cbv zeta.
  repeat match goal with
         | |- context [if ?b then _ else _] => let E := fresh "E" in destruct b eqn:E
         | |- context [match ?o with Some _ => _ | None => _ end] => destruct o
         end;
  intros H; injection H as <- <-; simpl;
  repeat match goal with H : (_ && _)%bool = true |- _ => apply andb_true_iff in H as [? ?] end;
  (split; [first [left; reflexivity | right; assumption] |]);
  (split; [intros Hc; first [reflexivity | destruct Hc as [Hc|[Hc|Hc]]; discriminate Hc] |]);
  (split; [intros Hc; first [lia | destruct Hc as [Hc|Hc]; discriminate Hc] | discriminate]).
Qed.

Lemma postflop_decision_legal_amount (chips : Z) (available_names : list string)
    (amount_to_call current_bet : Z) (hand_strength draw_equity total_equity : Q)
    (implied_calc : ImpliedOdds) (spr_guidance : SprGuidance) (config : Config)
    (total_pot : Z) (u : Q) (a : Action) (amt : Z) :
  postflop_decision chips available_names amount_to_call current_bet hand_strength
    draw_equity total_equity implied_calc spr_guidance config total_pot u = (a, amt) ->
  (a = FOLD \/ a = ALL_IN \/ name_in (action_name a) available_names = true) /\
  (a <> ALL_IN -> amt = 0%Z \/ (40 <= amt)%Z) /\
  ((a = BET \/ a = RAISE) -> (40 <= amt)%Z) /\
  (a = ALL_IN -> amt = chips).
Proof.
  intros H. unfold postflop_decision in H.
  destruct (push_fold spr_guidance).
  - destruct (Qge_b _ _); injection H as <- <-.
    + split; [tauto|]. split; [intros Hc; contradiction|].
      split; [intros Hc; destruct Hc as [Hc|Hc]; discriminate Hc | reflexivity].
    + split; [tauto|]. split; [intros _; left; reflexivity|].
      split; [intros Hc; destruct Hc as [Hc|Hc]; discriminate Hc | intros Hc; discriminate Hc].
  - assert (Hs : forall a' amt',
              postflop_sample chips available_names amount_to_call current_bet hand_strength
                draw_equity config total_pot u = (a', amt') ->
              (a' = FOLD \/ a' = ALL_IN \/ name_in (action_name a') available_names = true) /\
              (a' <> ALL_IN -> amt' = 0%Z \/ (40 <= amt')%Z) /\
              ((a' = BET \/ a' = RAISE) -> (40 <= amt')%Z) /\
              (a' = ALL_IN -> amt' = chips)).
    { intros a' amt' Hp.
      destruct (postflop_sample_legal_amount _ _ _ _ _ _ _ _ _ _ _ Hp) as [Hl [Hna [H0 H40]]].
      destruct (valid_weights available_names
                  (calculate_postflop_weights hand_strength draw_equity config)) eqn:Ev.
      - destruct (H0 eq_refl) as [-> ->].
        split; [tauto|]. split; [intros _; left; reflexivity|].
        split; [intros [E|E]; discriminate E | intros E; discriminate E].
      - assert (Hge : (40 <= amt')%Z) by (apply H40; discriminate).
        split; [tauto|]. split; [intros _; right; exact Hge|].
        split; [intros _; exact Hge | intros E; contradiction]. }
    cbv zeta in H.
    destruct (Qlt_b 0.15 draw_equity); [|exact (Hs _ _ H)].
    destruct (io_should_call implied_calc && name_in "call" available_names) eqn:Ecall.
    + injection H as <- <-. apply andb_true_iff in Ecall as [_ Ecall].
      split; [tauto|]. split; [intros _; left; reflexivity|].
      split; [intros [Hc|Hc]; discriminate Hc | intros Hc; discriminate Hc].
    + destruct (Qlt_b 0.30 draw_equity && name_in "raise" available_names
                && Qlt_b hand_strength 0.5) eqn:Eraise; [|exact (Hs _ _ H)].
      injection H as <- <-. apply andb_true_iff in Eraise as [Eraise _].
      apply andb_true_iff in Eraise as [_ Eraise].
      split; [tauto|]. split; [intros _; right; lia|].
      split; [intros _; lia | intros Hc; discriminate Hc].
Qed.

(** Every action [get_action] returns is fold, all-in, or one of the
    available actions.  Its amount is 0 or at least 40 (two big blinds):
    a bet or a raise carries at least 40, an all-in carries the player's
    whole stack, and pre-flop a fold, check or call carries 0; after the
    flop a fold, check or call drawn by the weighted sampling is sized by
    [_calculate_amount] like a bet, since no [Action] equals its name. *)
Theorem get_action_legal_amounts (s : Shark) (rq : Request) (u : Q) (a : Action) (amt : Z) :
  get_action s rq u = Some (a, amt) ->
  (a = FOLD \/ a = ALL_IN \/ name_in (action_name a) (rq_available rq) = true) /\
  (a <> ALL_IN -> amt = 0%Z \/ (40 <= amt)%Z) /\
  ((a = BET \/ a = RAISE) -> (40 <= amt)%Z) /\
  (a = ALL_IN -> amt = rq_chips rq) /\
  (rq_state rq = PRE_FLOP -> (a = FOLD \/ a = CHECK \/ a = CALL) -> amt = 0%Z).
Proof.
  unfold get_action. cbv zeta.
  destruct (identify_draws (rq_hole rq) (rq_community rq)) as [draws|]; [|discriminate].
  destruct (calculate_direct_odds _ _); [|discriminate].
  destruct (calculate_implied_odds _ _ _ _ _) as [ic|]; [|discriminate].
  intros H. destruct (rq_state rq); injection H as H;
    try (destruct (postflop_decision_legal_amount _ _ _ _ _ _ _ _ _ _ _ _ _ _ H)
           as [Hl [H0 [H40 Hall]]];
         split; [exact Hl|]; split; [exact H0|]; split; [exact H40|];
         split; [exact Hall | intros E; discriminate E]).
  destruct (preflop_decision_legal_amount _ _ _ _ _ _ H) as [Hl [H0 [H40 Hna]]].
  split; [destruct Hl; tauto|].
  split; [intros _; destruct a; try (left; apply H0; tauto); right; apply H40; tauto|].
  split; [exact H40|]. split; [intros E; contradiction|]. intros _; exact H0.
Qed.

Lemma get_action_legal_amounts_witness :
  get_action init_shark (short_stack_flop 0.1) 0 = Some (FOLD, 0%Z) /\
  (FOLD = FOLD \/ FOLD = ALL_IN \/
   name_in (action_name FOLD) (rq_available (short_stack_flop 0.1)) = true) /\
  (FOLD <> ALL_IN -> 0%Z = 0%Z \/ (40 <= 0)%Z).
Proof.
  assert (H : get_action init_shark (short_stack_flop 0.1) 0 = Some (FOLD, 0%Z))
    by (vm_compute; reflexivity).
  split; [exact H|].
  destruct (get_action_legal_amounts init_shark (short_stack_flop 0.1) 0 FOLD 0 H)
    as [Hl [H0 _]].
  split; [exact Hl | exact H0].
Defined.

(** When the weighted-sampling step of [_postflop_decision] has a
    candidate, the action it draws, check, call and fold included, comes
    with at least 40 from [_calculate_amount] (no [Action] equals its
    lower-case name there), never 0; only the empty case returns
    [(FOLD, 0)]. *)
Theorem postflop_sample_amount_at_least_40 (chips : Z) (available_names : list string)
    (amount_to_call current_bet : Z) (hand_strength draw_equity : Q)
    (config : Config) (total_pot : Z) (u : Q) :
  (valid_weights available_names
     (calculate_postflop_weights hand_strength draw_equity config) = [] ->
   postflop_sample chips available_names amount_to_call current_bet hand_strength
     draw_equity config total_pot u = (FOLD, 0%Z)) /\
  (valid_weights available_names
     (calculate_postflop_weights hand_strength draw_equity config) <> [] ->
   (40 <= snd (postflop_sample chips available_names amount_to_call current_bet
                 hand_strength draw_equity config total_pot u))%Z).
Proof.
  split.
  - intros He. unfold postflop_sample. rewrite He. reflexivity.
  - intros Hne.
    destruct (postflop_sample chips available_names amount_to_call current_bet hand_strength
                draw_equity config total_pot u) as [a amt] eqn:E.
    destruct (postflop_sample_legal_amount _ _ _ _ _ _ _ _ _ _ _ E) as [_ [_ [_ H40]]].
    exact (H40 Hne).
Qed.

Lemma postflop_sample_amount_at_least_40_witness :
  postflop_sample 1000 ["check"; "bet"]%string 0 0 0.1 0 base_config 100 0 = (CHECK, 40%Z) /\
  (40 <= snd (postflop_sample 1000 ["check"; "bet"]%string 0 0 0.1 0 base_config 100 0))%Z.
Proof.
  split; [vm_compute; reflexivity|].
  apply (proj2 (postflop_sample_amount_at_least_40 1000 ["check"; "bet"]%string 0 0 0.1 0
                  base_config 100 0)).
  vm_compute. discriminate.
Defined.

(** Pre-flop, [get_action] plays a hand weaker than 0.70 (raises or calls
    with it) only from the button or the small blind: [get_position]
    never reports CO, so the big blind and the other seats only check or
    fold such hands. *)
Theorem get_action_preflop_weak_hand_position (s : Shark) (rq : Request) (u : Q) (a : Action) (amt : Z) :
  rq_state rq = PRE_FLOP -> rq_hand_strength rq < 0.70 ->
  get_action s rq u = Some (a, amt) -> (a = RAISE \/ a = CALL) ->
  rq_is_dealer rq = true \/ (rq_is_dealer rq = false /\ rq_is_small_blind rq = true).
Proof.
  intros Hst Hhs. unfold get_action. cbv zeta. rewrite Hst.
  destruct (identify_draws (rq_hole rq) (rq_community rq)); [|discriminate].
  destruct (calculate_direct_odds _ _); [|discriminate].
  destruct (calculate_implied_odds _ _ _ _ _); [|discriminate].
  intros H; injection H as H. unfold preflop_decision in H. cbv zeta in H.
  assert (H80 : Qge_b (rq_hand_strength rq) 0.80 = false).
  { unfold Qge_b. destruct (Qlt_le_dec _ 0.80) as [|Hle]; [reflexivity|].
    exfalso. apply (Qlt_not_le _ _ Hhs). apply (Qle_trans _ 0.80); [discriminate | exact Hle]. }
  assert (H70 : Qge_b (rq_hand_strength rq) 0.70 = false).
  { unfold Qge_b. destruct (Qlt_le_dec _ 0.70) as [|Hle]; [reflexivity|].
    exfalso. apply (Qlt_not_le _ _ Hhs Hle). }
  rewrite H80, H70 in H.
  destruct (rq_is_dealer rq); [intros; left; reflexivity|].
  destruct (rq_is_small_blind rq); [intros; right; split; reflexivity|].
  intros Hra. exfalso. revert H Hra.
  destruct (rq_is_big_blind rq); cbv - [Qlt_b preflop_adjusted_threshold];
    repeat match goal with
           | |- context [if ?b then _ else _] => destruct b
           end; intros H; injection H as <- _; intros [Hc|Hc]; discriminate Hc.
Qed.

Lemma get_action_preflop_weak_hand_position_witness :
  exists a amt,
    get_action init_shark
      (mkRequest 1000 true false false [1000; 1000]%Z ["raise"; "call"; "fold"]%string 20 20 30
         [mkCard "h" 9; mkCard "h" 10] [] PRE_FLOP 0.65 0.5) 0 = Some (a, amt) /\
    (a = RAISE \/ a = CALL) /\
    (true = true \/ (true = false /\ false = true)).
Proof.
  exists RAISE, 40%Z.
  assert (H : get_action init_shark
      (mkRequest 1000 true false false [1000; 1000]%Z ["raise"; "call"; "fold"]%string 20 20 30
         [mkCard "h" 9; mkCard "h" 10] [] PRE_FLOP 0.65 0.5) 0 = Some (RAISE, 40%Z))
    by (vm_compute; reflexivity).
  split; [exact H|]. split; [left; reflexivity|].
  apply (get_action_preflop_weak_hand_position init_shark
           (mkRequest 1000 true false false [1000; 1000]%Z ["raise"; "call"; "fold"]%string 20 20 30
              [mkCard "h" 9; mkCard "h" 10] [] PRE_FLOP 0.65 0.5) 0 RAISE 40);
    [reflexivity | vm_compute; reflexivity | exact H | left; reflexivity].
Defined.

Lemma postflop_weights_fold_zero (hs de : Q) (config : Config) (kv : string * Q) :
  Qlt_b 0.60 (hs * 0.7 + de * 0.3) = true ->
  In kv (calculate_postflop_weights hs de config) -> fst kv = "fold"%string -> snd kv = 0.
Proof.
  intros H60. unfold calculate_postflop_weights. cbv zeta.
  destruct (Qlt_b 0.80 (hs * 0.7 + de * 0.3)); [|rewrite H60];
    simpl; intros Hin Hk; repeat destruct Hin as [<-|Hin]; try reflexivity;
    try (simpl in Hk; discriminate Hk); destruct Hin.
Qed.

(** Outside the push-or-fold regime, when the combined equity
    [hand_strength * 0.7 + draw_equity * 0.3] exceeds 0.60,
    [_postflop_decision] folds only when no weighted candidate is
    available: fold has weight 0 in both strong bands and the draw step
    never folds. *)
Theorem postflop_decision_strong_no_fold (chips : Z) (available_names : list string)
    (amount_to_call current_bet : Z) (hand_strength draw_equity total_equity : Q)
    (implied_calc : ImpliedOdds) (spr_guidance : SprGuidance) (config : Config)
    (total_pot : Z) (u : Q) :
  push_fold spr_guidance = false ->
  Qlt_b 0.60 (hand_strength * 0.7 + draw_equity * 0.3) = true ->
  fst (postflop_decision chips available_names amount_to_call current_bet hand_strength
         draw_equity total_equity implied_calc spr_guidance config total_pot u) = FOLD ->
  valid_weights available_names (calculate_postflop_weights hand_strength draw_equity config) = [].
Proof.
  intros Hpf H60. unfold postflop_decision. rewrite Hpf. cbv zeta.
  assert (Hs : fst (postflop_sample chips available_names amount_to_call current_bet
                      hand_strength draw_equity config total_pot u) = FOLD ->
               valid_weights available_names
                 (calculate_postflop_weights hand_strength draw_equity config) = []).
  { intros Hf.
    destruct (valid_weights available_names
                (calculate_postflop_weights hand_strength draw_equity config)) as [|kv rest] eqn:Ev;
      [reflexivity|].
    exfalso.
    assert (Hne : valid_weights available_names
                    (calculate_postflop_weights hand_strength draw_equity config) <> [])
      by (rewrite Ev; discriminate).
    destruct (postflop_sample_key chips available_names amount_to_call current_bet
                hand_strength draw_equity config total_pot u Hne)
      as [a [Hin [Hnames [_ Ha]]]].
    rewrite Hf in Ha. apply (f_equal action_name) in Ha.
    rewrite action_of_name_name in Ha by exact Hnames. simpl in Ha. subst a.
    apply in_map_iff in Hin as [kv' [Hk Hkv]].
    apply valid_weights_sub in Hkv as [Hw Hpos].
    rewrite (postflop_weights_fold_zero _ _ _ _ H60 Hw Hk) in Hpos. discriminate Hpos. }
  destruct (Qlt_b 0.15 draw_equity); [|exact Hs].
  destruct (io_should_call implied_calc && name_in "call" available_names);
    [discriminate|].
  destruct (Qlt_b 0.30 draw_equity && name_in "raise" available_names
            && Qlt_b hand_strength 0.5); [discriminate | exact Hs].
Qed.

Lemma postflop_decision_strong_no_fold_witness :
  valid_weights ["fold"]%string (calculate_postflop_weights 0.9 0 base_config) = [].
Proof.
  apply (postflop_decision_strong_no_fold 100 ["fold"]%string 50 50 0.9 0 0.9
           (mkImpliedOdds None (Some (1#3)) (Some (1#2)) (Some 0) false)
           (mkSprGuidance false false 0.55 false 0.48 false) base_config 100 0);
    vm_compute; reflexivity.
Defined.

(** ** Further properties of the weighted choice *)

Lemma pick_positive (r c : Q) (ws : list (string * Q)) (a : string) :
  c < r -> pick r c ws = Some a -> exists w, In (a, w) ws /\ 0 < w.
Proof.
  revert c. induction ws as [|[k w] ws IH]; intros c Hc; simpl; [discriminate|].
  destruct (Qle_bool r (c + w)) eqn:E.
  - intros H; injection H as <-. exists w. split; [left; reflexivity|].
    apply Qle_bool_iff in E.
    assert (Hcw : c < c + w) by (apply (Qlt_le_trans _ _ _ Hc E)).
    rewrite <- (Qplus_0_r c) in Hcw at 1. apply Qplus_lt_r in Hcw. exact Hcw.
  - intros H. assert (Hr : c + w < r).
    { apply Qnot_le_lt. intros Hle. apply Qle_bool_iff in Hle. congruence. }
    destruct (IH (c + w) Hr H) as [w' [Hin Hw']]. exists w'. split; [right; exact Hin | exact Hw'].
Qed.

Lemma pick_some (r c : Q) (ws : list (string * Q)) :
  ws <> [] -> r <= fold_left Qplus (map snd ws) c -> pick r c ws <> None.
Proof.
  revert c. induction ws as [|[k w] ws IH]; intros c Hne Hr; [contradiction|]. simpl in *.
  destruct (Qle_bool r (c + w)) eqn:E; [discriminate|].
  destruct ws as [|kv ws'].
  - exfalso. simpl in Hr. apply Qle_bool_iff in Hr. congruence.
  - apply IH; [discriminate | exact Hr].
Qed.

(** [_weighted_choice] returns 'fold' when the weights sum to 0.  With
    non-negative weights of positive sum and a random value [u] in (0, 1],
    it returns a key of positive weight: a key of weight 0 is never drawn. *)
Theorem weighted_choice_positive (ws : list (string * Q)) (u : Q) :
  (sumQ (map snd ws) == 0 -> weighted_choice ws u = "fold"%string) /\
  ((forall kv, In kv ws -> 0 <= snd kv) -> 0 < sumQ (map snd ws) -> 0 < u -> u <= 1 ->
   exists w, In (weighted_choice ws u, w) ws /\ 0 < w).
Proof.
  split.
  - intros H0. unfold weighted_choice. apply Qeq_bool_iff in H0. rewrite H0. reflexivity.
  - intros Hnn Hpos Hu0 Hu1. unfold weighted_choice.
    assert (Hne : Qeq_bool (sumQ (map snd ws)) 0 = false).
    { apply not_true_is_false. intros E. apply Qeq_bool_iff in E. rewrite E in Hpos. discriminate Hpos. }
    rewrite Hne.
    assert (Hr0 : 0 < u * sumQ (map snd ws)) by (apply Qmult_lt_0_compat; assumption).
    assert (Hr1 : u * sumQ (map snd ws) <= sumQ (map snd ws)).
    { rewrite <- (Qmult_1_l (sumQ (map snd ws))) at 2.
      apply Qmult_le_compat_r; [exact Hu1 | apply Qlt_le_weak, Hpos]. }
    assert (Hws : ws <> []) by (intros ->; discriminate Hpos).
    destruct (pick (u * sumQ (map snd ws)) 0 ws) as [a|] eqn:Ep.
    + exact (pick_positive _ _ _ _ Hr0 Ep).
    + exfalso. exact (pick_some _ _ _ Hws Hr1 Ep).
Qed.

Lemma weighted_choice_positive_witness :
  exists w, In (weighted_choice [("fold", 0); ("call", 0.25); ("bet", 0.75)]%string 0.5, w)
              [("fold", 0); ("call", 0.25); ("bet", 0.75)]%string /\ 0 < w.
Proof.
  apply (proj2 (weighted_choice_positive [("fold", 0); ("call", 0.25); ("bet", 0.75)]%string 0.5));
    [| reflexivity | reflexivity | discriminate].
  intros kv Hin. simpl in Hin. repeat destruct Hin as [<-|Hin]; try discriminate; destruct Hin.
Defined.

(** ** Further properties of the opponent summary *)

Lemma dict_set_length_existing {V : Type} (k : string) (v w : V) (d : list (string * V)) :
  dict_get k d = Some w -> length (dict_set k v d) = length d.
Proof.
  induction d as [|[k' v'] d IH]; simpl; [discriminate|].
  destruct (String.eqb k k'); simpl; [reflexivity|]. intros H. rewrite (IH H). reflexivity.
Qed.

Lemma dict_set_length_le {V : Type} (k : string) (v : V) (d : list (string * V)) :
  (length (dict_set k v d) <= S (length d))%nat.
Proof.
  induction d as [|[k' v'] d IH]; simpl; [lia|]. destruct (String.eqb k k'); simpl; lia.
Qed.

Lemma initialize_opponents_length (players : list Player) (s : Shark) :
  (length (opponent_data (initialize_opponents players s)) <= length players)%nat.
Proof.
  unfold initialize_opponents. simpl.
  change (length players) with (length (@nil (string * OppData)) + length players)%nat.
  generalize (@nil (string * OppData)).
  induction players as [|p ps IH]; intros od; simpl; [lia|].
  specialize (IH (if negb (is_ai p) || negb (String.eqb (ai_style p) "SHARK")
                  then dict_set (pname p) fresh_opp od else od)).
  destruct (_ || _); [pose proof (dict_set_length_le (pname p) fresh_opp od)|]; lia.
Qed.

Lemma observe_length (s : Shark) (o : Obs) :
  length (opponent_data (observe s o)) = length (opponent_data s).
Proof.
  unfold observe, update_after_action.
  destruct (dict_get (o_name o) (opponent_data s)) as [d|] eqn:Eg; [|reflexivity].
  pose proof (dict_set_length_existing (o_name o)
                (record_action (o_action o) (o_bluff o) (o_cbet o) d) _ _ Eg) as H1.
  assert (Hg : dict_get (o_name o)
                 (dict_set (o_name o) (record_action (o_action o) (o_bluff o) (o_cbet o) d)
                    (opponent_data s)) = Some (record_action (o_action o) (o_bluff o) (o_cbet o) d))
    by apply dict_get_dict_set_eq.
  pose proof (dict_set_length_existing (o_name o)
                (calculate_tendencies (record_action (o_action o) (o_bluff o) (o_cbet o) d))
                _ _ Hg) as H2.
  cbv zeta. repeat match goal with |- context [if ?b then _ else _] => destruct b end;
    simpl; congruence.
Qed.

(** Activation implies that the threshold of observed hands was reached. *)
Definition active_inv (s : Shark) : Prop :=
  adaptation_active s = true ->
  (adaptation_start base_config <= total_hands (opponent_data s))%nat.

Lemma observe_total_hands (s : Shark) (o : Obs) :
  (total_hands (opponent_data s) <= total_hands (opponent_data (observe s o)))%nat.
Proof.
  unfold observe, update_after_action.
  destruct (dict_get (o_name o) (opponent_data s)) as [d|] eqn:Eg; [|lia].
  set (data := record_action (o_action o) (o_bluff o) (o_cbet o) d).
  assert (Hdata : hands_observed data = S (hands_observed d)).
  { unfold data, record_action.
    repeat match goal with |- context [if ?b then _ else _] => destruct b end; reflexivity. }
  assert (Hod : total_hands (dict_set (o_name o) data (opponent_data s))
                = S (total_hands (opponent_data s))).
  { rewrite !total_hands_sum. pose proof (sum_hands_dict_set_get (o_name o) data d _ Eg). lia. }
  assert (Hod' : total_hands (dict_set (o_name o) (calculate_tendencies data)
                   (dict_set (o_name o) data (opponent_data s))) = S (total_hands (opponent_data s))).
  { rewrite dict_set_dict_set, <- Hod, !total_hands_sum.
    apply sum_hands_dict_set_same, calculate_tendencies_hands. }
  cbv zeta. repeat match goal with |- context [if ?b then _ else _] => destruct b end;
    simpl; rewrite ?Hod, ?Hod'; lia.
Qed.

Lemma observe_active_inv (s : Shark) (o : Obs) : active_inv s -> active_inv (observe s o).
Proof.
  unfold active_inv. intros Hinv Hact.
  pose proof (observe_total_hands s o) as Hmono.
  destruct (adaptation_active s) eqn:Ea; [apply (Nat.le_trans _ _ _ (Hinv eq_refl) Hmono)|].
  revert Hact Hmono. unfold observe, update_after_action.
  destruct (dict_get (o_name o) (opponent_data s)) as [d|] eqn:Eg; [intros Hact|congruence].
  set (data := record_action (o_action o) (o_bluff o) (o_cbet o) d) in *.
  set (od := dict_set (o_name o) data (opponent_data s)) in *.
  assert (Hod' : total_hands (dict_set (o_name o) (calculate_tendencies data) od) = total_hands od).
  { unfold od. rewrite dict_set_dict_set, !total_hands_sum.
    apply sum_hands_dict_set_same, calculate_tendencies_hands. }
  cbv zeta in Hact |- *. rewrite Ea in Hact |- *.
  destruct (adaptation_start base_config <=? total_hands od)%nat eqn:Et;
    [apply Nat.leb_le in Et|];
    destruct (Nat.eqb _ _); simpl in Hact |- *; try discriminate Hact;
    rewrite ?Hod'; intros; exact Et.
Qed.

Lemma sum_hands_bound (od : list (string * OppData)) :
  Forall (fun kv => (hands_observed (snd kv) <= 4)%nat) od ->
  (sum_hands od <= 4 * length od)%nat.
Proof.
  unfold sum_hands. induction 1 as [|kv od Hkv _ IH]; simpl; lia.
Qed.

(** With at most four players given to [initialize_opponents], once
    adaptation is active after any sequence of observed actions,
    [get_opponent_summary] is an analysis ("分析: ...") that describes at
    least one opponent, never the learning text: activation needs 20
    observed hands, so some opponent has been seen at least 5 times. *)
Theorem opponent_summary_after_activation (players : list Player) (s0 : Shark) (os : list Obs) :
  (length players <= 4)%nat ->
  adaptation_active (run (initialize_opponents players s0) os) = true ->
  exists rest, get_opponent_summary (run (initialize_opponents players s0) os)
               = ("[鲨鱼AI] 分析: " ++ rest)%string.
Proof.
  intros Hlen Hact.
  assert (Hinv : active_inv (run (initialize_opponents players s0) os)).
  { clear Hact. unfold run. assert (H0 : active_inv (initialize_opponents players s0))
      by (unfold active_inv; simpl; discriminate).
    revert H0. generalize (initialize_opponents players s0).
    induction os as [|o os IH]; intros s Hs; simpl; [exact Hs|].
    apply IH, observe_active_inv, Hs. }
  assert (Hl : (length (opponent_data (run (initialize_opponents players s0) os)) <= 4)%nat).
  { clear Hact Hinv. unfold run. pose proof (initialize_opponents_length players s0) as H0.
    revert H0. generalize (initialize_opponents players s0).
    induction os as [|o os IH]; intros s Hs; cbn [fold_left]; [lia|].
    apply IH. rewrite observe_length. exact Hs. }
  specialize (Hinv Hact). simpl in Hinv.
  set (s := run (initialize_opponents players s0) os) in *.
  unfold get_opponent_summary. rewrite Hact. cbn [negb]. cbv zeta.
  destruct (filter (fun kv => (5 <=? hands_observed (snd kv))%nat) (opponent_data s)) as [|kv rest] eqn:Ef.
  - exfalso. rewrite total_hands_sum in Hinv.
    assert (Hall : Forall (fun kv => (hands_observed (snd kv) <= 4)%nat) (opponent_data s)).
    { apply Forall_forall. intros kv Hin.
      destruct (5 <=? hands_observed (snd kv))%nat eqn:E5.
      - assert (Hf : In kv (filter (fun kv => (5 <=? hands_observed (snd kv))%nat) (opponent_data s)))
          by (apply filter_In; split; assumption).
        rewrite Ef in Hf. destruct Hf.
      - apply Nat.leb_gt in E5. lia. }
    pose proof (sum_hands_bound _ Hall). lia.
  - cbn [map]. eexists. reflexivity.
Qed.

Lemma opponent_summary_after_activation_witness :
  exists rest,
    get_opponent_summary
      (run (initialize_opponents [mkPlayer "Bob" false "LAG"; mkPlayer "Shark2" true "SHARK"]%string
              init_shark)
         (repeat (mkObs "Bob" "call" "flop" false false) 20))
    = ("[鲨鱼AI] 分析: " ++ rest)%string.
Proof.
  apply opponent_summary_after_activation; [simpl; lia | vm_compute; reflexivity].
Defined.

Lemma identify_draws_entries_witness :
  (forall c, dict_get "combo_draw" [("flush_draw", mkDraw 9 0.35); ("oesd", mkDraw 8 0.31);
                                    ("combo_draw", mkDraw 15 0.54)]%string = Some c ->
     dict_mem "flush_draw" [("flush_draw", mkDraw 9 0.35); ("oesd", mkDraw 8 0.31);
                            ("combo_draw", mkDraw 15 0.54)]%string = true /\
     ((dict_mem "oesd" [("flush_draw", mkDraw 9 0.35); ("oesd", mkDraw 8 0.31);
                        ("combo_draw", mkDraw 15 0.54)]%string = true /\ c = mkDraw 15 0.54) \/
      (dict_mem "oesd" [("flush_draw", mkDraw 9 0.35); ("oesd", mkDraw 8 0.31);
                        ("combo_draw", mkDraw 15 0.54)]%string = false /\
       dict_mem "gutshot" [("flush_draw", mkDraw 9 0.35); ("oesd", mkDraw 8 0.31);
                           ("combo_draw", mkDraw 15 0.54)]%string = true /\ c = mkDraw 12 0.45))) /\
  (dict_mem "backdoor_flush" [("flush_draw", mkDraw 9 0.35); ("oesd", mkDraw 8 0.31);
                              ("combo_draw", mkDraw 15 0.54)]%string = true ->
   length [mkCard "h" 7; mkCard "d" 6; mkCard "h" 2; mkCard "c" 3] = 3%nat).
Proof.
  apply (identify_draws_entries [mkCard "h" 9; mkCard "h" 8]
           [mkCard "h" 7; mkCard "d" 6; mkCard "h" 2; mkCard "c" 3]).
  vm_compute. reflexivity.
Defined.

Lemma identify_draws_equity_at_most_054_witness :
  draws_below 0.54 [("flush_draw", mkDraw 9 0.35); ("oesd", mkDraw 8 0.31);
                    ("combo_draw", mkDraw 15 0.54)]%string /\
  calculate_total_equity [("flush_draw", mkDraw 9 0.35); ("oesd", mkDraw 8 0.31);
                          ("combo_draw", mkDraw 15 0.54)]%string <= 0.54.
Proof.
  apply (identify_draws_equity_at_most_054 [mkCard "h" 9; mkCard "h" 8]
           [mkCard "h" 7; mkCard "d" 6; mkCard "h" 2; mkCard "c" 3]);
    [vm_compute; reflexivity | simpl; lia].
Defined.
